(** * ThunderKittens TMA: tensor-map construction and tile transfers

    A shallow embedding of [src/ops/warp/memory/tma.cuh]: the host-side
    descriptor builder [create_tensor_map], the device-side transfer
    operations [prefetch], [store_async], [load_async], and the barrier and
    store-group helpers.  Host code is embedded in an error monad whose
    failures are the assertion that fired or a compile-time rejection;
    device code threads the sequence of PTX instructions issued so far. *)

From Stdlib Require Import ZArith Lia String.
From stdpp Require Import base list.

Local Open Scope Z_scope.

(** ** Machine integers *)

Module Int.

Definition uint32 (z : Z) : Z := z mod 2 ^ 32.
Definition uint64 (z : Z) : Z := z mod 2 ^ 64.

Definition INT_MIN : Z := - 2 ^ 31.
Definition INT_MAX : Z := 2 ^ 31 - 1.

Definition in_int (z : Z) : Prop := INT_MIN <= z <= INT_MAX.
Definition in_intb (z : Z) : bool := (INT_MIN <=? z) && (z <=? INT_MAX).

(** [int / int] by a positive constant: C++ division truncates towards
    zero and cannot overflow. *)
Definition div (a b : Z) : Z := Z.quot a b.

End Int.

(** ** Tile types (the template arguments)

    The shared-tile declarations live in [types/types.cuh]; this file only
    reads [ST::rows], [ST::cols], [ST::width], [ST::layout] and [sizeof(ST)],
    which are therefore the fields of the type description below.  All four
    numbers are [int] (resp. [size_t]) constants of the tile type. *)

Module st_layout.

Inductive tag : Type :=
| naive
| tma_swizzle
| wgmma_row_0b
| wgmma_col_t_0b
| other.  (* any layout tag of ducks::st_layout not named in this file *)

End st_layout.

Record st : Type := {
  rows : Z;
  cols : Z;
  width : Z;
  layout : st_layout.tag;
  sizeof_st : Z
}.

(** A template type argument: the default tag type, a shared tile type, or
    anything else. *)
Inductive type_arg : Type :=
| default_type
| shared_tile (ST : st)
| other_type.

Definition sizeof_bf16 : Z := 2.

Module detail.

Definition st_type_2d_tma_layout (T : st) : bool :=
  match layout T with
  | st_layout.naive | st_layout.tma_swizzle => true
  | _ => false
  end.

Definition st_type_wgmma_row_layout (T : st) : bool :=
  match layout T with
  | st_layout.wgmma_row_0b => true
  | _ => false
  end.

Definition st_type_wgmma_col_t_layout (T : st) : bool :=
  match layout T with
  | st_layout.wgmma_col_t_0b => true
  | _ => false
  end.

Definition st_type_tma_layout (T : st) : bool :=
  st_type_2d_tma_layout T || st_type_wgmma_row_layout T || st_type_wgmma_col_t_layout T.

(** The same concept asked of an arbitrary type argument
    ([ducks::st::all<T>] holds exactly of shared tile types). *)
Definition type_is_tma_layout (T : type_arg) : bool :=
  match T with
  | shared_tile ST => st_type_tma_layout ST
  | _ => false
  end.

End detail.

(** ** Outcomes of a call

    [IllFormed]: the instantiation does not compile (an unsatisfied
    constraint, a failed [static_assert], or an overflowing constant
    expression).  [AssertionFailed a]: the run-time [assert] named [a]
    aborted the program.  [Undefined]: the call evaluated a signed
    multiplication that overflows, for which C++ defines no result. *)

Inductive assertion : Type :=
| assert_global_addr_aligned
| assert_gmem_stride_16B (k : nat)
| assert_smem_shape_256 (k : nat)
| assert_smem_shape0_16B
| assert_smem_stride_8 (k : nat)
| assert_smem_stride0_one
| assert_swizzle_size.

Inductive outcome (A : Type) : Type :=
| Returned (a : A)
| AssertionFailed (which : assertion)
| IllFormed
| Undefined.

Arguments Returned {A} a.
Arguments AssertionFailed {A} which.
Arguments IllFormed {A}.
Arguments Undefined {A}.

#[global] Instance outcome_ret : MRet outcome := fun _ a => Returned a.
#[global] Instance outcome_bind : MBind outcome := fun _ _ f m =>
  match m with
  | Returned a => f a
  | AssertionFailed w => AssertionFailed w
  | IllFormed => IllFormed
  | Undefined => Undefined
  end.

Definition assert (b : bool) (which : assertion) : outcome unit :=
  if b then Returned tt else AssertionFailed which.

(** A constraint or [static_assert] on a template argument. *)
Definition requires (b : bool) : outcome unit :=
  if b then Returned tt else IllFormed.

(** [int * int] inside a constant expression: an overflowing product is not
    a constant expression, so the initialisation does not compile. *)
Definition constexpr_mul (a b : Z) : outcome Z :=
  if Int.in_intb (a * b) then Returned (a * b) else IllFormed.

(** [int * int] at run time. *)
Definition int_mul (a b : Z) : outcome Z :=
  if Int.in_intb (a * b) then Returned (a * b) else Undefined.

(** ** CUDA driver interface *)

Definition CUresult : Type := Z.
Definition CUDA_SUCCESS : CUresult := 0.

(** Driver enumerations, by value (the code casts an integer into one). *)
Definition CUtensorMapSwizzle : Type := Z.
Definition CU_TENSOR_MAP_SWIZZLE_NONE : CUtensorMapSwizzle := 0.
Definition CU_TENSOR_MAP_SWIZZLE_32B : CUtensorMapSwizzle := 1.
Definition CU_TENSOR_MAP_SWIZZLE_64B : CUtensorMapSwizzle := 2.
Definition CU_TENSOR_MAP_SWIZZLE_128B : CUtensorMapSwizzle := 3.

Inductive CUtensorMapDataType : Type := CU_TENSOR_MAP_DATA_TYPE_BFLOAT16.
Inductive CUtensorMapInterleave : Type := CU_TENSOR_MAP_INTERLEAVE_NONE.
Inductive CUtensorMapL2promotion : Type := CU_TENSOR_MAP_L2_PROMOTION_NONE.
Inductive CUtensorMapFloatOOBfill : Type := CU_TENSOR_MAP_FLOAT_OOB_FILL_NONE.

Definition CUtensorMapInterleave_eqb (a b : CUtensorMapInterleave) : bool :=
  match a, b with
  | CU_TENSOR_MAP_INTERLEAVE_NONE, CU_TENSOR_MAP_INTERLEAVE_NONE => true
  end.

(** The arguments of one [cuTensorMapEncodeTiled] call, under the names the
    builder gives them. *)
Record encode_args : Type := {
  tma_format : CUtensorMapDataType;
  tma_dim : Z;
  global_addr : Z;
  gmem_shape : list Z;
  gmem_stride : list Z;
  smem_shape : list Z;
  smem_stride : list Z;
  tma_interleave : CUtensorMapInterleave;
  tma_swizzle : CUtensorMapSwizzle;
  tma_l2Promotion : CUtensorMapL2promotion;
  tma_oobFill : CUtensorMapFloatOOBfill
}.

(** ** The descriptor builder *)

Section Host.

(** The contents of a [CUtensorMap] object. *)
Variable CUtensorMap : Type.

(** [cuTensorMapEncodeTiled]: from the map's previous contents and the
    arguments, a result code and the map's new contents. *)
Variable cuTensorMapEncodeTiled : CUtensorMap -> encode_args -> CUresult * CUtensorMap.

(** [cuGetErrorString]: a result code of its own and the string it stores
    ([None] for the null pointer it stores for an unknown code). *)
Variable cuGetErrorString : CUresult -> CUresult * option string.

(** What a returning call of [create_tensor_map] has done. *)
Record host_effect : Type := {
  encode_call : encode_args;
  encode_result : CUresult;
  tma_map_after : CUtensorMap;
  cerr : string
}.

Definition endl : string := String (Ascii.ascii_of_nat 10) EmptyString.

(** [std::cerr << "Error: " << error_string << std::endl]; inserting a null
    [char*] sets the stream's badbit, after which nothing more is written. *)
Definition cerr_error (error_string : option string) : string :=
  match error_string with
  | Some s => ("Error: " ++ s ++ endl)%string
  | None => "Error: "%string
  end.

Definition create_tensor_map (ST : st) (num_blocks : Z)
    (tma_map : CUtensorMap) (src : Z) : outcome host_effect :=
  requires (detail.st_type_tma_layout ST);;
  let tma_dim := if detail.st_type_2d_tma_layout ST then 2 else 5 in
  let global_addr := src in
  let tma_swizzle_from_size :=
    if width ST =? 1 then CU_TENSOR_MAP_SWIZZLE_32B
    else if width ST =? 2 then CU_TENSOR_MAP_SWIZZLE_64B
    else if width ST =? 4 then CU_TENSOR_MAP_SWIZZLE_128B
    else (-1) in
  let tma_format := CU_TENSOR_MAP_DATA_TYPE_BFLOAT16 in
  let tma_interleave := CU_TENSOR_MAP_INTERLEAVE_NONE in
  let tma_l2Promotion := CU_TENSOR_MAP_L2_PROMOTION_NONE in
  let tma_oobFill := CU_TENSOR_MAP_FLOAT_OOB_FILL_NONE in
  let tma_swizzle :=
    match layout ST with
    | st_layout.tma_swizzle => tma_swizzle_from_size
    | _ => CU_TENSOR_MAP_SWIZZLE_NONE
    end in
  let gmem_shape := [0; 0; 0; 0; 0] in
  let gmem_stride := [0; 0; 0; 0] in
  let smem_shape := [0; 0; 0; 0; 0] in
  let smem_stride := [1; 1; 1; 1; 1] in
  (* constant expressions are evaluated when the template is instantiated *)
  height ← constexpr_mul num_blocks (rows ST);
  let swizzled :=
    CUtensorMapInterleave_eqb tma_interleave CU_TENSOR_MAP_INTERLEAVE_NONE &&
    negb (tma_swizzle =? CU_TENSOR_MAP_SWIZZLE_NONE) in
  swizzle_size ← (if swizzled then constexpr_mul (width ST) 32 else mret 0);
  let global_tile_height := Int.uint64 height in
  let global_tile_width := Int.uint64 (cols ST) in
  let shared_tile_height := Int.uint64 (rows ST) in
  let shared_tile_width := Int.uint64 (cols ST) in
  let '(gmem_shape, gmem_stride, smem_shape) :=
    if detail.st_type_2d_tma_layout ST then
      (<[1%nat := global_tile_height]> (<[0%nat := global_tile_width]> gmem_shape),
       <[0%nat := Int.uint64 (shared_tile_width * sizeof_bf16)]> gmem_stride,
       <[1%nat := Int.uint32 shared_tile_height]>
         (<[0%nat := Int.uint32 shared_tile_width]> smem_shape))
    else if detail.st_type_wgmma_row_layout ST then
      (<[4%nat := global_tile_width / 16]> (<[3%nat := global_tile_height / 8]>
         (<[2%nat := 2]> (<[1%nat := 8]> (<[0%nat := 8]> gmem_shape)))),
       <[3%nat := Int.uint64 (16 * sizeof_bf16)]>
         (<[2%nat := Int.uint64 (8 * global_tile_width * sizeof_bf16)]>
         (<[1%nat := Int.uint64 (8 * sizeof_bf16)]>
         (<[0%nat := Int.uint64 (global_tile_width * sizeof_bf16)]> gmem_stride))),
       <[4%nat := Int.uint32 (shared_tile_width / 16)]>
         (<[3%nat := Int.uint32 (shared_tile_height / 8)]>
         (<[2%nat := 2]> (<[1%nat := 8]> (<[0%nat := 8]> smem_shape)))))
    else if detail.st_type_wgmma_col_t_layout ST then
      (<[4%nat := global_tile_height / 16]> (<[3%nat := global_tile_width / 8]>
         (<[2%nat := 2]> (<[1%nat := 8]> (<[0%nat := 8]> gmem_shape)))),
       <[3%nat := Int.uint64 (16 * global_tile_width * sizeof_bf16)]>
         (<[2%nat := Int.uint64 (8 * sizeof_bf16)]>
         (<[1%nat := Int.uint64 (8 * global_tile_width * sizeof_bf16)]>
         (<[0%nat := Int.uint64 (global_tile_width * sizeof_bf16)]> gmem_stride))),
       <[4%nat := Int.uint32 (shared_tile_height / 16)]>
         (<[3%nat := Int.uint32 (shared_tile_width / 8)]>
         (<[2%nat := 2]> (<[1%nat := 8]> (<[0%nat := 8]> smem_shape)))))
    else (gmem_shape, gmem_stride, smem_shape) in
  assert (Z.land (Int.uint64 global_addr) 15 =? 0) assert_global_addr_aligned;;
  assert (gmem_stride !!! 0%nat mod 16 =? 0) (assert_gmem_stride_16B 0);;
  assert (gmem_stride !!! 1%nat mod 16 =? 0) (assert_gmem_stride_16B 1);;
  assert (gmem_stride !!! 2%nat mod 16 =? 0) (assert_gmem_stride_16B 2);;
  assert (gmem_stride !!! 3%nat mod 16 =? 0) (assert_gmem_stride_16B 3);;
  assert (smem_shape !!! 0%nat <=? 256) (assert_smem_shape_256 0);;
  assert (smem_shape !!! 1%nat <=? 256) (assert_smem_shape_256 1);;
  assert (smem_shape !!! 2%nat <=? 256) (assert_smem_shape_256 2);;
  assert (smem_shape !!! 3%nat <=? 256) (assert_smem_shape_256 3);;
  assert (smem_shape !!! 4%nat <=? 256) (assert_smem_shape_256 4);;
  assert (Int.uint64 (smem_shape !!! 0%nat * sizeof_bf16) mod 16 =? 0) assert_smem_shape0_16B;;
  assert (smem_stride !!! 0%nat <=? 8) (assert_smem_stride_8 0);;
  assert (smem_stride !!! 1%nat <=? 8) (assert_smem_stride_8 1);;
  assert (smem_stride !!! 2%nat <=? 8) (assert_smem_stride_8 2);;
  assert (smem_stride !!! 3%nat <=? 8) (assert_smem_stride_8 3);;
  assert (smem_stride !!! 4%nat <=? 8) (assert_smem_stride_8 4);;
  assert (smem_stride !!! 0%nat =? 1) assert_smem_stride0_one;;
  (if swizzled then
     assert (Int.uint64 (smem_shape !!! 0%nat * sizeof_bf16) <=? Int.uint64 swizzle_size)
            assert_swizzle_size
   else mret tt);;
  let args := {|
    tma_format := tma_format;
    tma_dim := tma_dim;
    global_addr := global_addr;
    gmem_shape := gmem_shape;
    gmem_stride := gmem_stride;
    smem_shape := smem_shape;
    smem_stride := smem_stride;
    tma_interleave := tma_interleave;
    tma_swizzle := tma_swizzle;
    tma_l2Promotion := tma_l2Promotion;
    tma_oobFill := tma_oobFill |} in
  let '(result, tma_map) := cuTensorMapEncodeTiled tma_map args in
  let '(res, error_string) := cuGetErrorString result in
  mret {|
    encode_call := args;
    encode_result := result;
    tma_map_after := tma_map;
    cerr := if negb (result =? CUDA_SUCCESS) then cerr_error error_string
            else EmptyString |}.

End Host.

Arguments encode_call {CUtensorMap} _.
Arguments encode_result {CUtensorMap} _.
Arguments tma_map_after {CUtensorMap} _.
Arguments cerr {CUtensorMap} _.

(** ** Device side

    Every device function of the file acts on the outside world only through
    the inline PTX it executes, so a call is embedded as a transformer of the
    sequence of instructions issued so far. *)

Inductive instr : Type :=
| cp_async_bulk_prefetch_tensor_2d (tma_ptr crd0 crd1 : Z)
| cp_async_bulk_prefetch_tensor_5d (tma_ptr crd0 crd1 crd2 crd3 crd4 : Z)
| cp_async_bulk_tensor_2d_global_shared (tma_ptr src_ptr crd0 crd1 : Z)
| cp_async_bulk_tensor_5d_global_shared (tma_ptr src_ptr crd0 crd1 crd2 crd3 crd4 : Z)
| cp_async_bulk_tensor_2d_shared_global (dst_ptr tma_ptr mbar_ptr crd0 crd1 : Z)
| cp_async_bulk_tensor_5d_shared_global (dst_ptr tma_ptr mbar_ptr crd0 crd1 crd2 crd3 crd4 : Z)
| mbarrier_arrive_expect_tx (bar_ptr bytes : Z)
| mbarrier_init (bar_ptr tc : Z)
| cp_async_bulk_commit_group
| cp_async_bulk_wait_group (N : Z)
| syncwarp.

Definition issued : Type := list instr.

(** The coordinate operand of a tensor copy or prefetch. *)
Definition coordinates (i : instr) : option (list Z) :=
  match i with
  | cp_async_bulk_prefetch_tensor_2d _ c0 c1
  | cp_async_bulk_tensor_2d_global_shared _ _ c0 c1
  | cp_async_bulk_tensor_2d_shared_global _ _ _ c0 c1 => Some [c0; c1]
  | cp_async_bulk_prefetch_tensor_5d _ c0 c1 c2 c3 c4
  | cp_async_bulk_tensor_5d_global_shared _ _ c0 c1 c2 c3 c4
  | cp_async_bulk_tensor_5d_shared_global _ _ _ c0 c1 c2 c3 c4 => Some [c0; c1; c2; c3; c4]
  | _ => None
  end.

(** The calling thread, as far as the file looks at it. *)
Record thread : Type := { threadIdx_x : Z }.

Section Device.

(** [::kittens::laneid()], declared in [common/common.cuh]. *)
Variable laneid : thread -> Z.

(** [__cvta_generic_to_shared], on addresses. *)
Variable cvta_generic_to_shared : Z -> Z.

Definition prefetch (ST : st) (self : thread)
    (dst src_tma_map tile_idx : Z) (tr : issued) : outcome issued :=
  requires (detail.st_type_tma_layout ST);;
  if threadIdx_x self =? 0 then
    let tma_ptr := Int.uint64 src_tma_map in
    if detail.st_type_2d_tma_layout ST then
      let crd0 := 0 in
      crd1 ← int_mul tile_idx (rows ST);
      mret (tr ++ [cp_async_bulk_prefetch_tensor_2d tma_ptr crd0 crd1])
    else
      let crd0 := 0 in
      let crd1 := 0 in
      let crd2 := 0 in
      crd3 ← (if detail.st_type_wgmma_row_layout ST
              then int_mul tile_idx (Int.div (rows ST) 8) else mret 0);
      crd4 ← (if detail.st_type_wgmma_row_layout ST
              then mret 0 else int_mul tile_idx (Int.div (rows ST) 16));
      mret (tr ++ [cp_async_bulk_prefetch_tensor_5d tma_ptr crd0 crd1 crd2 crd3 crd4])
  else mret tr.

Definition store_async (ST : st) (self : thread)
    (dst_tma_map src tile_idx : Z) (tr : issued) : outcome issued :=
  requires (detail.st_type_tma_layout ST);;
  if laneid self =? 0 then
    let tma_ptr := Int.uint64 dst_tma_map in
    let src_ptr := Int.uint32 (cvta_generic_to_shared src) in
    if detail.st_type_2d_tma_layout ST then
      let crd0 := 0 in
      crd1 ← int_mul tile_idx (rows ST);
      mret (tr ++ [cp_async_bulk_tensor_2d_global_shared tma_ptr src_ptr crd0 crd1])
    else
      let crd0 := 0 in
      let crd1 := 0 in
      let crd2 := 0 in
      crd3 ← (if detail.st_type_wgmma_row_layout ST
              then int_mul tile_idx (Int.div (rows ST) 8) else mret 0);
      crd4 ← (if detail.st_type_wgmma_row_layout ST
              then mret 0 else int_mul tile_idx (Int.div (rows ST) 16));
      mret (tr ++ [cp_async_bulk_tensor_5d_global_shared tma_ptr src_ptr
                     crd0 crd1 crd2 crd3 crd4])
  else mret tr.

Definition load_async (ST : st) (self : thread)
    (dst src_tma_map tile_idx barrier : Z) (tr : issued) : outcome issued :=
  requires (detail.st_type_tma_layout ST);;
  if laneid self =? 0 then
    let tma_ptr := Int.uint64 src_tma_map in
    let mbar_ptr := Int.uint32 (cvta_generic_to_shared barrier) in
    let dst_ptr := Int.uint32 (cvta_generic_to_shared dst) in
    if detail.st_type_2d_tma_layout ST then
      let crd0 := 0 in
      crd1 ← int_mul tile_idx (rows ST);
      mret (tr ++ [cp_async_bulk_tensor_2d_shared_global dst_ptr tma_ptr mbar_ptr crd0 crd1])
    else
      let crd0 := 0 in
      let crd1 := 0 in
      let crd2 := 0 in
      crd3 ← (if detail.st_type_wgmma_row_layout ST
              then int_mul tile_idx (Int.div (rows ST) 8) else mret 0);
      crd4 ← (if detail.st_type_wgmma_row_layout ST
              then mret 0 else int_mul tile_idx (Int.div (rows ST) 16));
      mret (tr ++ [cp_async_bulk_tensor_5d_shared_global dst_ptr tma_ptr mbar_ptr
                     crd0 crd1 crd2 crd3 crd4])
  else mret tr.

Definition set_barrier_bytes (self : thread) (barrier bytes : Z) (tr : issued) : issued :=
  if laneid self =? 0 then
    let ptr := barrier in
    let bar_ptr := Int.uint32 (cvta_generic_to_shared ptr) in
    tr ++ [mbarrier_arrive_expect_tx bar_ptr bytes]
  else tr.

Definition init_barrier (T : type_arg) (self : thread)
    (barrier tc : Z) (tr : issued) : outcome issued :=
  requires (detail.type_is_tma_layout T ||
            match T with default_type => true | _ => false end);;
  if laneid self =? 0 then
    let ptr := barrier in
    let bar_ptr := Int.uint32 (cvta_generic_to_shared ptr) in
    let tr := tr ++ [mbarrier_init bar_ptr tc] in
    match T with
    | shared_tile ST =>
        if detail.st_type_tma_layout ST
        then mret (set_barrier_bytes self barrier (Int.uint32 (sizeof_st ST)) tr)
        else mret tr
    | _ => mret tr
    end
  else mret tr.

Definition store_commit_group (self : thread) (tr : issued) : issued :=
  if laneid self =? 0 then tr ++ [cp_async_bulk_commit_group] else tr.

Definition store_async_wait (N : Z) (tr : issued) : issued :=
  (tr ++ [cp_async_bulk_wait_group N]) ++ [syncwarp].

(** [store_async_wait<>()]: the template's default argument. *)
Definition store_async_wait_default : issued -> issued := store_async_wait 0.

End Device.

(** ** Vocabulary of the properties *)

(** The tile constants are positive [int]s, and so is the byte count
    [width * 32] that the builder forms from the width. *)
Definition st_ok (ST : st) : Prop :=
  0 < rows ST <= Int.INT_MAX /\ 0 < cols ST <= Int.INT_MAX /\
  0 < width ST /\ 32 * width ST <= Int.INT_MAX.

(** The edge that tile rows and columns are counted in: the larger of the
    two block edges (8 and 16) that the blocked layouts divide by. *)
Definition granularity : Z := 16.

(** The three transfer operations, to speak of them together. *)
Inductive transfer : Type := Prefetch | StoreAsync | LoadAsync.

(** The guard each operation tests before it issues anything. *)
Definition issues_from (laneid : thread -> Z) (op : transfer) (self : thread) : bool :=
  match op with
  | Prefetch => threadIdx_x self =? 0
  | StoreAsync | LoadAsync => laneid self =? 0
  end.

Definition run_transfer (laneid : thread -> Z) (cvta_generic_to_shared : Z -> Z)
    (op : transfer) (ST : st) (self : thread)
    (tile tma_map tile_idx barrier : Z) (tr : issued) : outcome issued :=
  match op with
  | Prefetch => prefetch ST self tile tma_map tile_idx tr
  | StoreAsync => store_async laneid cvta_generic_to_shared ST self tma_map tile tile_idx tr
  | LoadAsync =>
      load_async laneid cvta_generic_to_shared ST self tile tma_map tile_idx barrier tr
  end.

(** Coordinate derivation as the specification gives it (section 4.3), with
    [i × rows/8] read as the tile index times the number of 8-row blocks. *)
Definition spec_coordinates (ST : st) (i : Z) : list Z :=
  match layout ST with
  | st_layout.naive | st_layout.tma_swizzle => [0; i * rows ST]
  | st_layout.wgmma_row_0b => [0; 0; 0; i * (rows ST / 8); 0]
  | st_layout.wgmma_col_t_0b => [0; 0; 0; 0; i * (rows ST / 16)]
  | st_layout.other => []
  end.

(** The same with [i × rows/8] read as the row offset [i × rows] counted in
    8-row blocks. *)
Definition spec_coordinates_by_rows (ST : st) (i : Z) : list Z :=
  match layout ST with
  | st_layout.naive | st_layout.tma_swizzle => [0; i * rows ST]
  | st_layout.wgmma_row_0b => [0; 0; 0; i * rows ST / 8; 0]
  | st_layout.wgmma_col_t_0b => [0; 0; 0; 0; i * rows ST / 16]
  | st_layout.other => []
  end.

(** The builder's algorithm as the specification words it (section 4.2). *)
Module spec.

Definition is_2D (ST : st) : bool :=
  match layout ST with
  | st_layout.naive | st_layout.tma_swizzle => true
  | _ => false
  end.

Definition dimensionality (ST : st) : Z := if is_2D ST then 2 else 5.

Definition global_tile_height (ST : st) (num_blocks : Z) : Z := num_blocks * rows ST.
Definition global_tile_width (ST : st) : Z := cols ST.

(** Shape of a [height × tile_width] plane under the layout's decomposition. *)
Definition shape (ST : st) (height tile_width : Z) : list Z :=
  match layout ST with
  | st_layout.wgmma_row_0b => [8; 8; 2; height / 8; tile_width / 16]
  | st_layout.wgmma_col_t_0b => [8; 8; 2; tile_width / 8; height / 16]
  | _ => [tile_width; height]
  end.

(** Byte strides of dimensions 1 and up, from the global tile width. *)
Definition strides (ST : st) : list Z :=
  let w := global_tile_width ST in
  match layout ST with
  | st_layout.wgmma_row_0b =>
      [w * sizeof_bf16; 8 * sizeof_bf16; 8 * w * sizeof_bf16; 16 * sizeof_bf16]
  | st_layout.wgmma_col_t_0b =>
      [w * sizeof_bf16; 8 * w * sizeof_bf16; 8 * sizeof_bf16; 16 * w * sizeof_bf16]
  | _ => [w * sizeof_bf16]
  end.

(** Swizzle selection: from the width (32B/64B/128B for width 1/2/4) for
    the swizzled layout only, otherwise none.  The specification names no
    mode for another width. *)
Definition swizzle (ST : st) : option CUtensorMapSwizzle :=
  match layout ST with
  | st_layout.tma_swizzle =>
      if width ST =? 1 then Some CU_TENSOR_MAP_SWIZZLE_32B
      else if width ST =? 2 then Some CU_TENSOR_MAP_SWIZZLE_64B
      else if width ST =? 4 then Some CU_TENSOR_MAP_SWIZZLE_128B
      else None
  | _ => Some CU_TENSOR_MAP_SWIZZLE_NONE
  end.

End spec.

(** *** Closed form of the assembled arguments

    What the builder hands to the driver once every check has passed: the
    specification's arrays, in the fixed-size arrays of the code (unused
    entries keep their initial value). *)

Definition pad (n : nat) (d : Z) (l : list Z) : list Z :=
  l ++ replicate (n - length l) d.

Definition built_swizzle (ST : st) : CUtensorMapSwizzle :=
  match spec.swizzle ST with
  | Some sw => sw
  | None => -1
  end.

Definition built_args (ST : st) (num_blocks src : Z) : encode_args := {|
  tma_format := CU_TENSOR_MAP_DATA_TYPE_BFLOAT16;
  tma_dim := spec.dimensionality ST;
  global_addr := src;
  gmem_shape :=
    pad 5 0 (spec.shape ST (spec.global_tile_height ST num_blocks) (spec.global_tile_width ST));
  gmem_stride := pad 4 0 (spec.strides ST);
  smem_shape := pad 5 0 (spec.shape ST (rows ST) (cols ST));
  smem_stride := [1; 1; 1; 1; 1];
  tma_interleave := CU_TENSOR_MAP_INTERLEAVE_NONE;
  tma_swizzle := built_swizzle ST;
  tma_l2Promotion := CU_TENSOR_MAP_L2_PROMOTION_NONE;
  tma_oobFill := CU_TENSOR_MAP_FLOAT_OOB_FILL_NONE
|}.

Section Report.

Variable CUtensorMap : Type.
Variable cuTensorMapEncodeTiled : CUtensorMap -> encode_args -> CUresult * CUtensorMap.
Variable cuGetErrorString : CUresult -> CUresult * option string.

(** The effect of the call once the arguments [a] are assembled. *)
Definition encoded (tma_map : CUtensorMap) (a : encode_args) : host_effect CUtensorMap :=
  let result := (cuTensorMapEncodeTiled tma_map a).1 in
  {| encode_call := a;
     encode_result := result;
     tma_map_after := (cuTensorMapEncodeTiled tma_map a).2;
     cerr := if negb (result =? CUDA_SUCCESS)
             then cerr_error (cuGetErrorString result).2 else EmptyString |}.

End Report.

(** *** Addressing through a descriptor

    The copy engine's contract for a tiled tensor map: dimension 0 is
    contiguous, dimension [k+1] advances by [gmem_stride[k]] bytes, and a
    transfer at coordinate [origin] moves the box of [smem_shape] elements
    that starts there. *)

Fixpoint dot (xs ys : list Z) : Z :=
  match xs, ys with
  | x :: xs, y :: ys => x * y + dot xs ys
  | _, _ => 0
  end.

Definition tensor_offset (a : encode_args) (crd : list Z) : Z :=
  match crd with
  | [] => 0
  | c0 :: cs => c0 * sizeof_bf16 + dot cs (gmem_stride a)
  end.

(** [crd] lies in the box at [origin] with the given extents (one extent per
    coordinate of [origin]; further extents are unused dimensions). *)
Fixpoint in_box (origin extent crd : list Z) : Prop :=
  match origin, extent, crd with
  | [], _, [] => True
  | o :: os, e :: es, c :: cs => o <= c < o + e /\ in_box os es cs
  | _, _, _ => False
  end.

Definition origin_of (a : encode_args) : list Z :=
  replicate (Z.to_nat (tma_dim a)) 0.

(** Byte offsets of the tensor as a whole, and of the tile at [origin]. *)
Definition in_tensor (a : encode_args) (crd : list Z) : Prop :=
  in_box (origin_of a) (gmem_shape a) crd.

Definition in_tile (a : encode_args) (origin crd : list Z) : Prop :=
  in_box origin (smem_shape a) crd.

Definition tile_region (a : encode_args) (origin : list Z) (off : Z) : Prop :=
  exists crd, in_tile a origin crd /\ tensor_offset a crd = off.

(** Element [(b, r, c)] of the logical [(num_blocks, rows, cols)] tensor,
    stored row-major. *)
Definition logical_offset (ST : st) (b r c : Z) : Z :=
  ((b * rows ST + r) * cols ST + c) * sizeof_bf16.

(** The arguments [a] reconstruct the logical tensor: every tile lies in the
    global shape and holds elements of its own block only, every element of
    a block is addressed from its tile, distinct coordinates address
    distinct elements, and the global shape has exactly as many coordinates
    as the tensor has elements. *)
Definition reconstructs (ST : st) (num_blocks : Z) (a : encode_args) : Prop :=
  (forall b crd, 0 <= b < num_blocks -> in_tile a (spec_coordinates ST b) crd ->
     in_tensor a crd /\
     exists r c, 0 <= r < rows ST /\ 0 <= c < cols ST /\
       tensor_offset a crd = logical_offset ST b r c) /\
  (forall b r c, 0 <= b < num_blocks -> 0 <= r < rows ST -> 0 <= c < cols ST ->
     exists crd, in_tile a (spec_coordinates ST b) crd /\
       tensor_offset a crd = logical_offset ST b r c) /\
  (forall crd crd', in_tensor a crd -> in_tensor a crd' ->
     tensor_offset a crd = tensor_offset a crd' -> crd = crd') /\
  fold_right Z.mul 1 (take (Z.to_nat (tma_dim a)) (gmem_shape a)) =
    num_blocks * rows ST * cols ST.

(** No byte of global memory belongs to the tiles at both origins. *)
Definition disjoint_tiles (a : encode_args) (origin1 origin2 : list Z) : Prop :=
  forall off, tile_region a origin1 off -> tile_region a origin2 off -> False.

(** The shared-memory box of the layout fits the 256-element limit. *)
Definition box_fits (ST : st) : Prop :=
  match layout ST with
  | st_layout.wgmma_row_0b => rows ST / 8 <= 256 /\ cols ST / 16 <= 256
  | st_layout.wgmma_col_t_0b => cols ST / 8 <= 256 /\ rows ST / 16 <= 256
  | _ => cols ST <= 256 /\ rows ST <= 256
  end.

(** A row of the tile fits the swizzle granule, where one is in use. *)
Definition granule_fits (ST : st) : Prop :=
  match layout ST with
  | st_layout.tma_swizzle => cols ST * sizeof_bf16 <= width ST * 32
  | _ => True
  end.

(** Everything the builder asserts, in terms of the tile constants and the
    base address. *)
Definition passes_checks (ST : st) (src : Z) : Prop :=
  src mod 16 = 0 /\ cols ST mod 8 = 0 /\ box_fits ST /\ granule_fits ST.

(** Rows needed for one block along the stacking axis. *)
Definition stacking_block (ST : st) : Z :=
  match layout ST with
  | st_layout.wgmma_row_0b => 8
  | st_layout.wgmma_col_t_0b => 16
  | _ => 1
  end.

(** *** Executing issued instructions

    The hardware is a parameter: a state and the effect of one instruction
    on it. *)
Definition run {hw : Type} (exec : instr -> hw -> hw) (tr : issued) (h : hw) : hw :=
  fold_left (fun h i => exec i h) tr h.

(** *** Concrete collaborators, for worked instances *)

Module example.

(** Lane of a thread in a one-dimensional block of 32-wide warps. *)
Definition laneid (t : thread) : Z := Z.land (threadIdx_x t) 31.

Definition cvta (p : Z) : Z := p.

Definition CUDA_ERROR_INVALID_VALUE : CUresult := 1.

(** A driver that encodes by recording its arguments, and refuses a swizzle
    mode outside the enumeration. *)
Definition encode (m : option encode_args) (a : encode_args)
    : CUresult * option encode_args :=
  if (0 <=? tma_swizzle a) && (tma_swizzle a <=? 3)
  then (CUDA_SUCCESS, Some a) else (CUDA_ERROR_INVALID_VALUE, m).

Definition error_string (r : CUresult) : CUresult * option string :=
  if r =? CUDA_ERROR_INVALID_VALUE then (CUDA_SUCCESS, Some "invalid argument"%string)
  else (CUDA_ERROR_INVALID_VALUE, None).

(** Hardware reduced to its count of store groups still in flight. *)
Definition exec (i : instr) (pending : Z) : Z :=
  match i with
  | cp_async_bulk_commit_group => pending + 1
  | cp_async_bulk_wait_group n => Z.min pending n
  | _ => pending
  end.

Definition st_64x64_swizzled : st :=
  {| rows := 64; cols := 64; width := 4; layout := st_layout.tma_swizzle;
     sizeof_st := 8192 |}.

Definition st_128x256_row : st :=
  {| rows := 128; cols := 256; width := 16; layout := st_layout.wgmma_row_0b;
     sizeof_st := 65536 |}.

Definition st_64x64_col_t : st :=
  {| rows := 64; cols := 64; width := 4; layout := st_layout.wgmma_col_t_0b;
     sizeof_st := 8192 |}.

Definition st_512x64_naive : st :=
  {| rows := 512; cols := 64; width := 4; layout := st_layout.naive;
     sizeof_st := 65536 |}.

Definition st_4x64_row : st :=
  {| rows := 4; cols := 64; width := 4; layout := st_layout.wgmma_row_0b;
     sizeof_st := 512 |}.

Definition st_16x48_swizzled : st :=
  {| rows := 16; cols := 48; width := 3; layout := st_layout.tma_swizzle;
     sizeof_st := 1536 |}.

Definition st_64x64_narrow_swizzled : st :=
  {| rows := 64; cols := 64; width := 2; layout := st_layout.tma_swizzle;
     sizeof_st := 8192 |}.

End example.

(** ** Waiting on a barrier

    [arrive_and_wait] spins on [mbarrier.try_wait.parity] until the
    instruction sets its predicate.  The hardware is a parameter: one
    execution of the instruction gives the predicate and the next state.
    The loop is embedded with a bound on the number of polls; [None] means
    the bound was reached while still spinning. *)

Section Wait.

Variable hw : Type.
Variable mbarrier_try_wait_parity : Z -> Z -> hw -> bool * hw.
Variable cvta_generic_to_shared : Z -> Z.

Fixpoint LAB_WAIT (fuel : nat) (mbar_ptr kPhaseBit : Z) (h : hw) : option hw :=
  match fuel with
  | O => None
  | S fuel =>
      let '(P1, h) := mbarrier_try_wait_parity mbar_ptr kPhaseBit h in
      if P1 then Some h                               (* @P1 bra.uni DONE *)
      else LAB_WAIT fuel mbar_ptr kPhaseBit h         (* bra.uni LAB_WAIT *)
  end.

Definition arrive_and_wait (fuel : nat) (barrier kPhaseBit : Z) (h : hw) : option hw :=
  let ptr := barrier in
  let mbar_ptr := Int.uint32 (cvta_generic_to_shared ptr) in
  LAB_WAIT fuel mbar_ptr kPhaseBit h.

(** The state after [k] polls of the barrier at [barrier], and the predicate
    the next poll sets. *)
Fixpoint after_polls (k : nat) (barrier kPhaseBit : Z) (h : hw) : hw :=
  match k with
  | O => h
  | S k =>
      (mbarrier_try_wait_parity (Int.uint32 (cvta_generic_to_shared barrier)) kPhaseBit
         (after_polls k barrier kPhaseBit h)).2
  end.

Definition poll (k : nat) (barrier kPhaseBit : Z) (h : hw) : bool :=
  (mbarrier_try_wait_parity (Int.uint32 (cvta_generic_to_shared barrier)) kPhaseBit
     (after_polls k barrier kPhaseBit h)).1.

End Wait.

(** ** Further vocabulary *)

(** Extent of the shared-memory box along dimension [k]. *)
Definition box_extent (ST : st) (k : nat) : Z :=
  pad 5 0 (spec.shape ST (rows ST) (cols ST)) !!! k.

(** The first assertion of the builder that fails, in terms of the tile
    constants and the base address; [None] when all hold. *)
Definition verdict (ST : st) (src : Z) : option assertion :=
  if negb (src mod 16 =? 0) then Some assert_global_addr_aligned
  else if negb (cols ST mod 8 =? 0) then Some (assert_gmem_stride_16B 0)
  else if 256 <? box_extent ST 0 then Some (assert_smem_shape_256 0)
  else if 256 <? box_extent ST 1 then Some (assert_smem_shape_256 1)
  else if 256 <? box_extent ST 3 then Some (assert_smem_shape_256 3)
  else if 256 <? box_extent ST 4 then Some (assert_smem_shape_256 4)
  else if match layout ST with st_layout.tma_swizzle => true | _ => false end &&
          (width ST * 32 <? cols ST * sizeof_bf16)
       then Some assert_swizzle_size
  else None.

(** The assertions of the builder that some input can make fail. *)
Definition live_assertions : list assertion :=
  [assert_global_addr_aligned; assert_gmem_stride_16B 0;
   assert_smem_shape_256 0; assert_smem_shape_256 1;
   assert_smem_shape_256 3; assert_smem_shape_256 4; assert_swizzle_size].

(** The axis along which tiles are stacked, and the block of columns of the
    blocked layouts. *)
Definition stacking_axis (ST : st) : nat :=
  match layout ST with
  | st_layout.wgmma_row_0b => 3
  | st_layout.wgmma_col_t_0b => 4
  | _ => 1
  end.

Definition column_block (ST : st) : Z :=
  match layout ST with
  | st_layout.wgmma_row_0b => 16
  | st_layout.wgmma_col_t_0b => 8
  | _ => 1
  end.

(** Number of elements in the shared-memory box of the arguments [a]. *)
Definition box_elements (a : encode_args) : Z :=
  fold_right Z.mul 1 (take (Z.to_nat (tma_dim a)) (smem_shape a)).

Module example_barrier.

(** A barrier whose phase completes once [n] polls have been made: the
    state is the number of polls still to fail. *)
Definition try_wait (mbar_ptr kPhaseBit : Z) (n : nat) : bool * nat :=
  match n with
  | O => (true, O)
  | S n => (false, n)
  end.

(** A barrier that is waited on with a stale phase bit. *)
Definition try_wait_stale (mbar_ptr kPhaseBit : Z) (n : nat) : bool * nat := (false, n).

Definition st_64x24_row : st :=
  {| rows := 64; cols := 24; width := 2; layout := st_layout.wgmma_row_0b;
     sizeof_st := 3072 |}.

End example_barrier.

(** The barrier operand of an instruction that names one. *)
Definition barrier_operand (i : instr) : option Z :=
  match i with
  | mbarrier_init bar_ptr _
  | mbarrier_arrive_expect_tx bar_ptr _
  | cp_async_bulk_tensor_2d_shared_global _ _ bar_ptr _ _
  | cp_async_bulk_tensor_5d_shared_global _ _ bar_ptr _ _ _ _ _ => Some bar_ptr
  | _ => None
  end.

(** * Properties *)

(** ** Arithmetic of the machine integers *)

Arguments Int.uint32 : simpl never.
Arguments Int.uint64 : simpl never.

Ltac zlia := Z.to_euclidean_division_equations; lia.

Lemma uint64_small z : 0 <= z < 2 ^ 64 -> Int.uint64 z = z.
Proof. intros H. unfold Int.uint64. apply Z.mod_small. exact H. Qed.

Lemma uint32_small z : 0 <= z < 2 ^ 32 -> Int.uint32 z = z.
Proof. intros H. unfold Int.uint32. apply Z.mod_small. exact H. Qed.

Lemma uint64_mod16 z : Int.uint64 z mod 16 = z mod 16.
Proof.
  unfold Int.uint64. apply Z.mod_mod_divide.
  exists (2 ^ 60). reflexivity.
Qed.

Lemma land_15 z : Z.land z 15 = z mod 16.
Proof. change 15 with (Z.ones 4). rewrite Z.land_ones by lia. reflexivity. Qed.

Lemma in_intb_iff z : Int.in_intb z = true <-> Int.in_int z.
Proof. unfold Int.in_intb, Int.in_int. rewrite andb_true_iff, !Z.leb_le. tauto. Qed.

Lemma int_mul_defined a b : Int.in_int (a * b) -> int_mul a b = Returned (a * b).
Proof. intros H. unfold int_mul. apply in_intb_iff in H. rewrite H. reflexivity. Qed.

Lemma constexpr_mul_Returned a b z :
  constexpr_mul a b = Returned z <-> Int.in_int (a * b) /\ z = a * b.
Proof.
  unfold constexpr_mul. rewrite <- in_intb_iff.
  destruct (Int.in_intb (a * b)); split; intros H.
  - inversion H. auto.
  - destruct H as [_ ->]. reflexivity.
  - discriminate.
  - destruct H as [H _]. discriminate.
Qed.

Lemma int_div_nonneg a b : 0 <= a -> 0 < b -> Int.div a b = a / b.
Proof. intros Ha Hb. unfold Int.div. apply Z.quot_div_nonneg; lia. Qed.

(** ** The outcome monad *)

Lemma bind_assert_Returned {A} (b : bool) w (f : unit -> outcome A) x :
  (assert b w ≫= f) = Returned x <-> b = true /\ f tt = Returned x.
Proof.
  destruct b; cbn; split; intros H; try tauto; try discriminate.
  destruct H; discriminate.
Qed.

Lemma bind_assert_true {A} (b : bool) w (f : unit -> outcome A) :
  b = true -> (assert b w ≫= f) = f tt.
Proof. intros ->. reflexivity. Qed.

Lemma bind_assert_false {A} (b : bool) w (f : unit -> outcome A) :
  b = false -> (assert b w ≫= f) = AssertionFailed w.
Proof. intros ->. reflexivity. Qed.

Lemma bind_assert_compiles {A} (b : bool) w (f : unit -> outcome A) :
  f tt <> IllFormed -> (assert b w ≫= f) <> IllFormed.
Proof. destruct b; cbn; [auto | discriminate]. Qed.

Lemma bind_requires_true {A} (b : bool) (f : unit -> outcome A) :
  b = true -> (requires b ≫= f) = f tt.
Proof. intros ->. reflexivity. Qed.

Lemma bind_Returned {A B} (m : outcome A) (f : A -> outcome B) y :
  (m ≫= f) = Returned y <-> exists x, m = Returned x /\ f x = Returned y.
Proof.
  destruct m; cbn; split; intros H.
  - eauto.
  - destruct H as (x & [= ->] & H). exact H.
  - discriminate.
  - destruct H as (x & [=] & _).
  - discriminate.
  - destruct H as (x & [=] & _).
  - discriminate.
  - destruct H as (x & [=] & _).
Qed.

(** ** The descriptor builder, characterised *)

Ltac drop_casts :=
  repeat match goal with
  | |- context [Int.uint64 ?z] => rewrite (uint64_small z) by zlia
  | |- context [Int.uint32 ?z] => rewrite (uint32_small z) by zlia
  | H : context [Int.uint64 ?z] |- _ => rewrite (uint64_small z) in H by zlia
  | H : context [Int.uint32 ?z] |- _ => rewrite (uint32_small z) in H by zlia
  end.

Ltac split_checks H :=
  repeat match type of H with
  | (assert _ _ ≫= _) = Returned _ =>
      let E := fresh "Hchk" in
      apply bind_assert_Returned in H as [E H];
      first [apply Z.eqb_eq in E | apply Z.leb_le in E]
  end.

Ltac pass_checks :=
  repeat (rewrite bind_assert_true by
            (first [apply Z.eqb_eq | apply Z.leb_le]; zlia)).

Ltac unfold_spec :=
  unfold passes_checks, box_fits, granule_fits, encoded, built_args, built_swizzle,
    spec.swizzle, spec.shape, spec.strides, spec.dimensionality,
    spec.global_tile_height, spec.global_tile_width, spec.is_2D, pad.

Section HostProperties.

Variable CUtensorMap : Type.
Variable encode : CUtensorMap -> encode_args -> CUresult * CUtensorMap.
Variable errstr : CUresult -> CUresult * option string.

Lemma create_tensor_map_Returned ST nb m src eff :
  st_ok ST -> 0 <= nb ->
  create_tensor_map CUtensorMap encode errstr ST nb m src = Returned eff <->
  detail.st_type_tma_layout ST = true /\ Int.in_int (nb * rows ST) /\
  passes_checks ST src /\ eff = encoded CUtensorMap encode errstr m (built_args ST nb src).
Proof.
  intros (Hr & Hc & Hw & Hw32) Hnb.
  destruct ST as [r c w l sz]. cbn in Hr, Hc, Hw, Hw32.
  unfold Int.INT_MAX in *.
  unfold create_tensor_map. unfold_spec.
  assert (Hsw : constexpr_mul w 32 = Returned (w * 32)).
  { apply constexpr_mul_Returned. unfold Int.in_int, Int.INT_MIN, Int.INT_MAX. lia. }
  destruct l; cbn;
    try match goal with |- context [w =? 1] =>
      destruct (w =? 1) eqn:E1; [| destruct (w =? 2) eqn:E2; [| destruct (w =? 4) eqn:E4]];
      cbn; rewrite ?Z.eqb_eq, ?Z.eqb_neq in * end;
    try (split;
     [ intros H; apply bind_Returned in H as (h & Hh & H);
       apply constexpr_mul_Returned in Hh as [Hin ->];
       pose proof Hin as Hin'; unfold Int.in_int, Int.INT_MIN, Int.INT_MAX in Hin';
       try (rewrite Hsw in H; cbn in H);
       unfold sizeof_bf16 in *; rewrite land_15, !uint64_mod16 in H;
       drop_casts; split_checks H;
       destruct (encode m _) as [res m'] eqn:Eenc;
       destruct (errstr res) as [res' s] eqn:Eerr;
       inversion H; cbn; rewrite ?Eenc; cbn; rewrite ?Eerr; cbn;
       refine (conj eq_refl (conj Hin (conj _ eq_refl))); repeat split; zlia
     | intros (Htma & Hin & (Hsrc & Hc8 & [Hb1 Hb2] & Hg) & ->);
       pose proof Hin as Hin'; unfold Int.in_int, Int.INT_MIN, Int.INT_MAX in Hin';
       apply bind_Returned; exists (nb * r); split;
       [ apply constexpr_mul_Returned; auto |];
       try (rewrite Hsw; cbn);
       unfold sizeof_bf16 in *; rewrite land_15, !uint64_mod16;
       drop_casts; pass_checks;
       destruct (encode m _) as [res m'] eqn:Eenc;
       destruct (errstr res) as [res' s] eqn:Eerr;
       cbn; rewrite ?Eenc; cbn; rewrite ?Eerr; reflexivity ]).
  all: try (split; [discriminate | intros (Htma & _); discriminate]).
Qed.


Ltac peel H :=
  repeat first
    [ apply bind_assert_Returned in H as [_ H]
    | let x := fresh "x" in let Hx := fresh "Hx" in
      apply bind_Returned in H as (x & Hx & H) ].

(** Whatever the tile type, a returning call has assembled some arguments,
    called the driver on them once, and reported as [encoded] says. *)
Lemma create_tensor_map_effect ST nb m src eff :
  create_tensor_map CUtensorMap encode errstr ST nb m src = Returned eff ->
  exists a, eff = encoded CUtensorMap encode errstr m a.
Proof.
  unfold create_tensor_map, encoded. destruct ST as [r c w l sz].
  destruct l; cbn;
    try (destruct (w =? 1); [| destruct (w =? 2); [| destruct (w =? 4)]]; cbn);
    intros H; try discriminate H; peel H;
    match type of H with
    | context [encode m ?a] =>
        exists a; destruct (encode m a) as [res m'];
        destruct (errstr res) as [res' s] eqn:Eerr; cbn; rewrite Eerr;
        inversion H; reflexivity
    end.
Qed.

(** C8. When the encode call reports a failure code, [create_tensor_map]
    writes "Error: ", the driver's string for that code and a line end to
    [std::cerr] (so a failure is never silent), and the descriptor is left
    exactly as the failed driver call left it; when the encode call succeeds
    nothing is written. *)
Theorem encode_failure_is_reported ST nb m src eff :
  create_tensor_map CUtensorMap encode errstr ST nb m src = Returned eff ->
  encode m (encode_call eff) = (encode_result eff, tma_map_after eff) /\
  (encode_result eff = CUDA_SUCCESS -> cerr eff = EmptyString) /\
  (encode_result eff <> CUDA_SUCCESS ->
     (exists rest, cerr eff = ("Error: " ++ rest)%string) /\
     (forall s, (errstr (encode_result eff)).2 = Some s ->
        cerr eff = ("Error: " ++ s ++ endl)%string)).
Proof.
  intros H. apply create_tensor_map_effect in H as [a ->].
  unfold encoded. cbn. split; [| split].
  - destruct (encode m a); reflexivity.
  - intros ->. reflexivity.
  - intros Hne. apply Z.eqb_neq in Hne. rewrite Hne. cbn. split.
    + destruct (errstr (encode m a).1).2 as [s |]; cbn.
      * exists (s ++ endl)%string. reflexivity.
      * exists EmptyString. reflexivity.
    + intros s ->. reflexivity.
Qed.

(** C2. The arguments that reach the encode call are the ones of the
    specification's algorithm: rank 2 for the 2D layouts and 5 otherwise; the
    global shape is the layout's decomposition of a plane of height
    [num_blocks * rows] and width [cols], the shared shape that of one tile;
    the strides are computed from the global tile width; and the swizzle
    mode follows the width for the swizzled layout only. *)
Theorem create_tensor_map_assembles ST nb m src eff :
  st_ok ST -> 0 <= nb ->
  create_tensor_map CUtensorMap encode errstr ST nb m src = Returned eff ->
  let a := encode_call eff in
  let rank := Z.to_nat (tma_dim a) in
  tma_dim a = spec.dimensionality ST /\
  global_addr a = src /\
  take rank (gmem_shape a) =
    spec.shape ST (spec.global_tile_height ST nb) (spec.global_tile_width ST) /\
  take (rank - 1) (gmem_stride a) = spec.strides ST /\
  take rank (smem_shape a) = spec.shape ST (rows ST) (cols ST) /\
  smem_stride a = [1; 1; 1; 1; 1] /\
  (forall sw, spec.swizzle ST = Some sw -> tma_swizzle a = sw).
Proof.
  intros Hok Hnb H.
  apply create_tensor_map_Returned in H as (Htma & _ & _ & ->); [| assumption ..].
  cbv zeta.
  split; [| split; [| split; [| split; [| split; [| split]]]]];
    try (intros sw Hsw; change (built_swizzle ST = sw);
         unfold built_swizzle; rewrite Hsw; reflexivity);
    destruct ST as [r c w l sz]; destruct l; try discriminate Htma; reflexivity.
Qed.

(** C5. A swizzled tile whose row of [cols] bf16 elements is longer than
    the swizzle granule of [width * 32] bytes never yields a descriptor: the
    call stops before the driver is reached, and when the other checks pass
    it is the swizzle-granule assertion that stops it. *)
Theorem swizzle_granule_rejected ST nb m src :
  st_ok ST -> layout ST = st_layout.tma_swizzle ->
  width ST * 32 < cols ST * sizeof_bf16 ->
  (forall eff, create_tensor_map CUtensorMap encode errstr ST nb m src <> Returned eff) /\
  (Int.in_int (nb * rows ST) -> src mod 16 = 0 -> cols ST mod 8 = 0 ->
   cols ST <= 256 -> rows ST <= 256 ->
   create_tensor_map CUtensorMap encode errstr ST nb m src =
     AssertionFailed assert_swizzle_size).
Proof.
  intros (Hr & Hc & Hw & Hw32) Hl Hbig.
  destruct ST as [r c w l sz]. cbn in *. subst l.
  unfold Int.INT_MAX, sizeof_bf16 in *.
  assert (Hsw : constexpr_mul w 32 = Returned (w * 32)).
  { apply constexpr_mul_Returned. unfold Int.in_int, Int.INT_MIN, Int.INT_MAX. lia. }
  unfold create_tensor_map. cbn.
  destruct (w =? 1); [| destruct (w =? 2); [| destruct (w =? 4)]];
    cbn; rewrite Hsw; cbn; (split;
    [ intros eff H; apply bind_Returned in H as (h & Hh & H);
      unfold sizeof_bf16 in *; drop_casts; split_checks H; lia
    | intros Hin Hsrc Hc8 Hc256 Hr256;
      rewrite (proj2 (constexpr_mul_Returned nb r (nb * r))) by auto; cbn;
      unfold sizeof_bf16 in *; rewrite land_15, !uint64_mod16;
      drop_casts; pass_checks;
      rewrite bind_assert_false by (apply Z.leb_gt; lia); reflexivity ]).
Qed.


End HostProperties.

(** ** The transfer operations *)

Section DeviceProperties.

Variable laneid : thread -> Z.
Variable cvta : Z -> Z.

Lemma block_count_in_int i r d :
  0 < r -> 0 < d -> Int.in_int (i * r) -> Int.in_int (i * (r / d)).
Proof.
  unfold Int.in_int, Int.INT_MIN, Int.INT_MAX. intros Hr Hd Hi.
  assert (0 <= r / d <= r).
  { split; [apply Z.div_pos; lia | apply Z.div_le_upper_bound; nia]. }
  nia.
Qed.

Lemma transfer_constraint op ST self tile map i bar tr :
  detail.st_type_tma_layout ST = false ->
  run_transfer laneid cvta op ST self tile map i bar tr = IllFormed.
Proof.
  intros H. destruct op; cbn; unfold prefetch, store_async, load_async;
    rewrite H; reflexivity.
Qed.

Lemma transfer_idle op ST self tile map i bar tr :
  detail.st_type_tma_layout ST = true ->
  issues_from laneid op self = false ->
  run_transfer laneid cvta op ST self tile map i bar tr = Returned tr.
Proof.
  intros H Hg. destruct op; cbn in *; unfold prefetch, store_async, load_async;
    rewrite H, Hg; reflexivity.
Qed.

Lemma transfer_issues op ST self tile map i bar tr :
  detail.st_type_tma_layout ST = true ->
  0 < rows ST <= Int.INT_MAX ->
  Int.in_int (i * rows ST) ->
  issues_from laneid op self = true ->
  exists ins,
    run_transfer laneid cvta op ST self tile map i bar tr = Returned (tr ++ [ins]) /\
    coordinates ins = Some (spec_coordinates ST i).
Proof.
  intros H Hr Hi Hg.
  pose proof (block_count_in_int i (rows ST) 8 ltac:(lia) ltac:(lia) Hi) as Hi8.
  pose proof (block_count_in_int i (rows ST) 16 ltac:(lia) ltac:(lia) Hi) as Hi16.
  unfold spec_coordinates.
  destruct ST as [r c w l sz]. cbn in *.
  destruct op; cbn in *; unfold prefetch, store_async, load_async;
    destruct l; try discriminate H; cbn; rewrite Hg; cbn;
    rewrite ?int_div_nonneg by lia;
    rewrite ?int_mul_defined by assumption; cbn;
    eexists; (split; [reflexivity | reflexivity]).
Qed.

(** C1. Whichever of [prefetch], [store_async] and [load_async] is called
    from its issuing thread, for a transferable tile type and a tile index
    whose row offset [i * rows] is representable in [int], the one
    instruction issued carries the coordinates (0, i*rows) for the 2D
    layouts, (0,0,0, i*(rows/8), 0) for the blocked-row layout and
    (0,0,0,0, i*(rows/16)) for the blocked-col-transposed layout; for rows a
    multiple of 16 these are also (i*rows)/8 and (i*rows)/16. *)
Theorem transfer_coordinates op ST self tile map i bar tr :
  detail.st_type_tma_layout ST = true ->
  0 < rows ST <= Int.INT_MAX ->
  Int.in_int (i * rows ST) ->
  issues_from laneid op self = true ->
  exists ins,
    run_transfer laneid cvta op ST self tile map i bar tr = Returned (tr ++ [ins]) /\
    coordinates ins = Some (spec_coordinates ST i) /\
    (rows ST mod granularity = 0 ->
     spec_coordinates ST i = spec_coordinates_by_rows ST i).
Proof.
  intros H Hr Hi Hg.
  destruct (transfer_issues op ST self tile map i bar tr H Hr Hi Hg) as (ins & Hrun & Hcrd).
  exists ins. split; [exact Hrun | split; [exact Hcrd |]].
  unfold granularity, spec_coordinates, spec_coordinates_by_rows. intros Hm.
  destruct (layout ST); try reflexivity; repeat f_equal.
  - assert (rows ST = 8 * (rows ST / 8)) as E by zlia.
    rewrite E at 2. replace (i * (8 * (rows ST / 8))) with (i * (rows ST / 8) * 8) by lia.
    rewrite Z.div_mul by lia. reflexivity.
  - assert (rows ST = 16 * (rows ST / 16)) as E by zlia.
    rewrite E at 2. replace (i * (16 * (rows ST / 16))) with (i * (rows ST / 16) * 16) by lia.
    rewrite Z.div_mul by lia. reflexivity.
Qed.

Section Groups.

(** The execution group (warp) of a thread; within one group the lane id
    tells the threads apart. *)
Variable warp : thread -> Z.
Hypothesis lane_identifies :
  forall t1 t2, warp t1 = warp t2 -> laneid t1 = laneid t2 -> t1 = t2.


End Groups.

(** C7. From the issuing lane, [init_barrier] initialises the barrier with
    arrival count [tc]; instantiated with a transferable tile type it then
    sets the expected bytes to the size of that type, instantiated with the
    default type it sets none, and any other type argument does not
    compile.  Other lanes issue nothing. *)
Theorem init_barrier_sets_bytes T self barrier tc tr :
  let bar_ptr := Int.uint32 (cvta barrier) in
  (T = default_type -> laneid self = 0 ->
   init_barrier laneid cvta T self barrier tc tr =
     Returned (tr ++ [mbarrier_init bar_ptr tc])) /\
  (forall ST, T = shared_tile ST -> detail.st_type_tma_layout ST = true ->
   0 <= sizeof_st ST < 2 ^ 32 -> laneid self = 0 ->
   init_barrier laneid cvta T self barrier tc tr =
     Returned (tr ++ [mbarrier_init bar_ptr tc;
                      mbarrier_arrive_expect_tx bar_ptr (sizeof_st ST)])) /\
  (T <> default_type -> detail.type_is_tma_layout T = false ->
   init_barrier laneid cvta T self barrier tc tr = IllFormed) /\
  (laneid self <> 0 ->
   init_barrier laneid cvta T self barrier tc tr <> IllFormed ->
   init_barrier laneid cvta T self barrier tc tr = Returned tr).
Proof.
  cbv zeta. unfold init_barrier, set_barrier_bytes. repeat split.
  - intros -> Hl. apply Z.eqb_eq in Hl. cbn. rewrite Hl. reflexivity.
  - intros ST -> Htma Hsz Hl. apply Z.eqb_eq in Hl. cbn.
    repeat (rewrite ?Htma, ?Hl; cbn). rewrite (uint32_small (sizeof_st ST)) by exact Hsz.
    rewrite <- app_assoc. reflexivity.
  - intros Hnd Hno. destruct T as [| ST |]; cbn in *.
    + congruence.
    + rewrite Hno. reflexivity.
    + reflexivity.
  - intros Hl Hok. apply Z.eqb_neq in Hl.
    unfold requires in *.
    destruct (detail.type_is_tma_layout T || _); cbn in *;
      [| exfalso; apply Hok; reflexivity].
    rewrite Hl. reflexivity.
Qed.

End DeviceProperties.

Section StoreGroups.

(** Any hardware on which [cp.async.bulk.wait_group n] returns with at most
    [n] store groups in flight, and on which the warp barrier commits none. *)
Variable hw : Type.
Variable exec : instr -> hw -> hw.
Variable pending : hw -> Z.
Hypothesis wait_group_returns :
  forall n h, pending (exec (cp_async_bulk_wait_group n) h) <= n.
Hypothesis syncwarp_commits_nothing :
  forall h, pending (exec syncwarp h) <= pending h.

(** C9. [store_async_wait<N>] issues, from every calling thread, the
    wait for at most [N] outstanding store groups followed by the warp-wide
    barrier and nothing else, with [N = 0] by default; once both have
    executed at most [N] groups are in flight. *)
Theorem store_async_wait_fences N tr h :
  store_async_wait N tr = tr ++ [cp_async_bulk_wait_group N; syncwarp] /\
  store_async_wait_default tr = store_async_wait 0 tr /\
  run exec (store_async_wait N tr) h =
    exec syncwarp (exec (cp_async_bulk_wait_group N) (run exec tr h)) /\
  pending (run exec (store_async_wait N tr) h) <= N.
Proof.
  assert (E : store_async_wait N tr = tr ++ [cp_async_bulk_wait_group N; syncwarp]).
  { unfold store_async_wait. rewrite <- app_assoc. reflexivity. }
  assert (R : run exec (store_async_wait N tr) h =
              exec syncwarp (exec (cp_async_bulk_wait_group N) (run exec tr h))).
  { rewrite E. unfold run. rewrite fold_left_app. reflexivity. }
  repeat split; try assumption.
  rewrite R. etransitivity; [apply syncwarp_commits_nothing | apply wait_group_returns].
Qed.

End StoreGroups.

(** ** Addressing: tiles against the logical tensor *)

Lemma row_major_inj W a b a' b' :
  0 <= b < W -> 0 <= b' < W -> a * W + b = a' * W + b' -> a = a' /\ b = b'.
Proof. intros Hb Hb' E. destruct (Z.lt_trichotomy a a') as [H | [H | H]]; nia. Qed.

Lemma split_8 r : exists r1 r0, r = 8 * r1 + r0 /\ 0 <= r0 < 8.
Proof. exists (r / 8), (r mod 8). zlia. Qed.

Lemma split_16 r : exists r2 r1 r0, r = 16 * r2 + 8 * r1 + r0 /\ 0 <= r1 < 2 /\ 0 <= r0 < 8.
Proof. exists (r / 16), (r / 8 mod 2), (r mod 8). zlia. Qed.

Lemma div_16_8 p : 16 * p / 8 = 2 * p.
Proof. zlia. Qed.

Lemma div_16_16 p : 16 * p / 16 = p.
Proof. zlia. Qed.

Lemma div_n16_8 n p : n * (16 * p) / 8 = 2 * (n * p).
Proof. zlia. Qed.

Lemma div_n16_16 n p : n * (16 * p) / 16 = n * p.
Proof. zlia. Qed.

Ltac open_box H crd :=
  destruct crd as [| ?c0 [| ?c1 [| ?c2 [| ?c3 [| ?c4 [| ?c5 ?cs]]]]]];
  cbn in H; try (exfalso; tauto).

Ltac open_box' H crd :=
  destruct crd as [| ?d0 [| ?d1 [| ?d2 [| ?d3 [| ?d4 [| ?d5 ?ds]]]]]];
  cbn in H; try (exfalso; tauto).

Ltac unfold_addressing :=
  unfold in_tile, in_tensor, tile_region, origin_of, logical_offset, spec_coordinates,
    tensor_offset, built_args, pad, spec.shape, spec.strides, spec.dimensionality,
    spec.global_tile_height, spec.global_tile_width, spec.is_2D, sizeof_bf16 in *.

Section Reconstruction.

Variable ST : st.
Variables nb src : Z.
Hypothesis Hok : st_ok ST.
Hypothesis Htma : detail.st_type_tma_layout ST = true.
Hypothesis Hrows : rows ST mod granularity = 0.
Hypothesis Hcols : cols ST mod granularity = 0.
Hypothesis Hnb : 1 <= nb.

Local Abbreviation a := (built_args ST nb src).

Lemma rows_blocks : exists p, rows ST = 16 * p /\ 0 < p.
Proof.
  destruct Hok as (HR & _). unfold granularity in *.
  exists (rows ST / 16). zlia.
Qed.

Lemma cols_blocks : exists q, cols ST = 16 * q /\ 0 < q.
Proof.
  destruct Hok as (_ & HC & _). unfold granularity in *.
  exists (cols ST / 16). zlia.
Qed.

Ltac blocks :=
  let p := fresh "p" in let q := fresh "q" in
  let Ep := fresh "Ep" in let Eq := fresh "Eq" in
  let Hp := fresh "Hp" in let Hq := fresh "Hq" in
  destruct rows_blocks as (p & Ep & Hp); destruct cols_blocks as (q & Eq & Hq);
  unfold_addressing;
  destruct ST as [R C w l sz]; cbn [rows cols layout] in *; subst R C;
  rewrite ?div_16_8, ?div_16_16, ?div_n16_8, ?div_n16_16 in *.

Lemma tile_in_block b crd :
  0 <= b < nb -> in_tile a (spec_coordinates ST b) crd ->
  in_tensor a crd /\
  exists r c, 0 <= r < rows ST /\ 0 <= c < cols ST /\
    tensor_offset a crd = logical_offset ST b r c.
Proof.
  intros Hb H. blocks.
  (destruct l; try discriminate Htma; open_box H crd; cbn;
    change (Z.to_nat 2) with 2%nat; change (Z.to_nat 5) with 5%nat; cbn).
  - (split; [repeat split; nia |]).
    exists (c1 - b * (16 * p)), c0. repeat split; lia.
  - split; [repeat split; nia |].
    exists (c1 - b * (16 * p)), c0. repeat split; lia.
  - split; [repeat split; nia |].
    exists (c1 + 8 * c3 - b * (16 * p)), (c0 + 8 * c2 + 16 * c4). repeat split; lia.
  - split; [repeat split; nia |].
    exists (c1 + 8 * c2 + 16 * c4 - b * (16 * p)), (c0 + 8 * c3). repeat split; lia.
Qed.

Lemma block_in_tile b r c :
  0 <= b < nb -> 0 <= r < rows ST -> 0 <= c < cols ST ->
  exists crd, in_tile a (spec_coordinates ST b) crd /\
    tensor_offset a crd = logical_offset ST b r c.
Proof.
  intros Hb Hr Hc. blocks.
  destruct l; try discriminate Htma; cbn.
  - exists [c; b * (16 * p) + r]. cbn. repeat split; lia.
  - exists [c; b * (16 * p) + r]. cbn. repeat split; lia.
  - destruct (split_8 r) as (r1 & r0 & -> & Hr0).
    destruct (split_16 c) as (c4 & c2 & c0 & -> & Hc2 & Hc0).
    exists [c0; r0; c2; b * (2 * p) + r1; c4]. cbn. repeat split; lia.
  - destruct (split_16 r) as (r4 & r2 & r0 & -> & Hr2 & Hr0).
    destruct (split_8 c) as (c3 & c0 & -> & Hc0).
    exists [c0; r0; r2; c3; b * p + r4]. cbn. repeat split; lia.
Qed.

Lemma tensor_offset_inj crd crd' :
  in_tensor a crd -> in_tensor a crd' ->
  tensor_offset a crd = tensor_offset a crd' -> crd = crd'.
Proof.
  intros H H' E. blocks. revert E.
  (destruct l; try discriminate Htma; cbn in H, H';
    change (Z.to_nat 2) with 2%nat in *; change (Z.to_nat 5) with 5%nat in *;
    open_box H crd; open_box' H' crd'; cbn; intros E).
  - (destruct (row_major_inj (16 * q) c1 c0 d1 d0) as [-> ->]; [lia | lia | lia | reflexivity]).
  - destruct (row_major_inj (16 * q) c1 c0 d1 d0) as [-> ->]; [lia | lia | lia | reflexivity].
  - (destruct (row_major_inj (16 * q) (c1 + 8 * c3) (c0 + 8 * c2 + 16 * c4)
                (d1 + 8 * d3) (d0 + 8 * d2 + 16 * d4)) as [E1 E2]; [lia | lia | lia |]).
    (repeat f_equal; lia).
  - destruct (row_major_inj (16 * q) (c1 + 8 * c2 + 16 * c4) (c0 + 8 * c3)
                (d1 + 8 * d2 + 16 * d4) (d0 + 8 * d3)) as [E1 E2]; [lia | lia | lia |].
    repeat f_equal; lia.
Qed.

Lemma shape_holds_tensor :
  fold_right Z.mul 1 (take (Z.to_nat (tma_dim a)) (gmem_shape a)) =
  nb * rows ST * cols ST.
Proof.
  blocks.
  destruct l; try discriminate Htma; cbn;
    change (Z.to_nat 2) with 2%nat; change (Z.to_nat 5) with 5%nat; cbn; lia.
Qed.

End Reconstruction.

(** Tiles of different indices, addressed through the built arguments. *)
Lemma tile_regions_disjoint ST nb src i j off :
  st_ok ST -> detail.st_type_tma_layout ST = true ->
  stacking_block ST <= rows ST ->
  0 <= i -> 0 <= j -> i <> j ->
  tile_region (built_args ST nb src) (spec_coordinates ST i) off ->
  tile_region (built_args ST nb src) (spec_coordinates ST j) off -> False.
Proof.
  intros (HR & HC & _) Htma Hblock Hi Hj Hne (crd & H & E) (crd' & H' & E').
  rewrite <- E' in E. clear E'. revert E.
  unfold_addressing. unfold stacking_block in *.
  destruct ST as [R C w l sz]. cbn [rows cols layout] in *.
  destruct l; try discriminate Htma; open_box H crd; open_box' H' crd'; cbn; intros E.
  - destruct (row_major_inj C c1 c0 d1 d0) as [E1 E2]; [lia | lia | lia |]. nia.
  - destruct (row_major_inj C c1 c0 d1 d0) as [E1 E2]; [lia | lia | lia |]. nia.
  - assert (Hk : 16 * (C / 16) <= C) by zlia.
    assert (Hq : 1 <= R / 8) by zlia.
    generalize dependent (C / 16). generalize dependent (R / 8). intros q Hq H H' k.
    intros. destruct (row_major_inj C (c1 + 8 * c3) (c0 + 8 * c2 + 16 * c4)
                (d1 + 8 * d3) (d0 + 8 * d2 + 16 * d4)) as [E1 E2]; [lia | lia | lia |].
    assert (c3 = d3) by lia. nia.
  - assert (Hk : 8 * (C / 8) <= C) by zlia.
    assert (Hq : 1 <= R / 16) by zlia.
    generalize dependent (C / 8). generalize dependent (R / 16). intros q Hq H H' k.
    intros. destruct (row_major_inj C (c1 + 8 * c2 + 16 * c4) (c0 + 8 * c3)
                (d1 + 8 * d2 + 16 * d4) (d0 + 8 * d3)) as [E1 E2]; [lia | lia | lia |].
    assert (c4 = d4) by lia. nia.
Qed.

Lemma tile_origins_differ ST i j :
  st_ok ST -> detail.st_type_tma_layout ST = true ->
  stacking_block ST <= rows ST -> i <> j ->
  spec_coordinates ST i <> spec_coordinates ST j.
Proof.
  intros (HR & _) Htma Hblock Hne. unfold spec_coordinates, stacking_block in *.
  destruct ST as [R C w l sz]. cbn [rows cols layout] in *.
  destruct l; try discriminate Htma; intros [= E].
  - nia.
  - nia.
  - assert (1 <= R / 8) by zlia. nia.
  - assert (1 <= R / 16) by zlia. nia.
Qed.

(** ** Descriptors and the tiles addressed through them *)

Section Construction.

Variable CUtensorMap : Type.
Variable encode : CUtensorMap -> encode_args -> CUresult * CUtensorMap.
Variable errstr : CUresult -> CUresult * option string.

(** C3, as amended.  For a transferable tile type whose rows and cols are
    multiples of 16, whose shared-memory box stays within 256 elements per
    dimension, whose row fits the swizzle granule when the layout is
    swizzled, any [num_blocks >= 1] with [num_blocks * rows] representable
    in [int], and a 16-byte-aligned base pointer, every assertion of
    [create_tensor_map] holds and the arrays handed to the driver
    reconstruct the logical [(num_blocks, rows, cols)] tensor. *)
Theorem construction_succeeds ST nb m src :
  st_ok ST -> detail.st_type_tma_layout ST = true ->
  rows ST mod granularity = 0 -> cols ST mod granularity = 0 ->
  box_fits ST -> granule_fits ST ->
  1 <= nb -> Int.in_int (nb * rows ST) ->
  src mod 16 = 0 ->
  exists eff,
    create_tensor_map CUtensorMap encode errstr ST nb m src = Returned eff /\
    reconstructs ST nb (encode_call eff).
Proof.
  intros Hok Htma Hrows Hcols Hbox Hgran Hnb Hin Hsrc.
  exists (encoded CUtensorMap encode errstr m (built_args ST nb src)). split.
  - apply create_tensor_map_Returned; [assumption | lia |].
    split; [assumption | split; [assumption | split; [| reflexivity]]].
    unfold passes_checks. repeat split; try assumption.
    unfold granularity in Hcols. zlia.
  - change (encode_call (encoded CUtensorMap encode errstr m (built_args ST nb src)))
      with (built_args ST nb src).
    unfold reconstructs. split; [| split; [| split]].
    + intros b crd. apply tile_in_block; assumption.
    + intros b r c. apply block_in_tile; assumption.
    + intros crd crd'. apply tensor_offset_inj; assumption.
    + apply shape_holds_tensor; assumption.
Qed.

End Construction.

Section Aliasing.

Variable CUtensorMap : Type.
Variable encode : CUtensorMap -> encode_args -> CUresult * CUtensorMap.
Variable errstr : CUresult -> CUresult * option string.
Variable laneid : thread -> Z.
Variable cvta : Z -> Z.

(** C4, as amended.  For a transferable tile type with at least one block
    of rows along the stacking axis (1 row for the 2D layouts, 8 for
    blocked-row, 16 for blocked-col-transposed) and a descriptor built for
    [num_blocks] tiles, the transfers for two different tile indices below
    [num_blocks] carry different coordinates, and the regions of global
    memory addressed from them share no byte. *)
Theorem tiles_do_not_alias op ST nb m src eff self tile map bar tr i j :
  st_ok ST ->
  create_tensor_map CUtensorMap encode errstr ST nb m src = Returned eff ->
  stacking_block ST <= rows ST ->
  0 <= i < nb -> 0 <= j < nb -> i <> j ->
  issues_from laneid op self = true ->
  exists ins_i ins_j crd_i crd_j,
    run_transfer laneid cvta op ST self tile map i bar tr = Returned (tr ++ [ins_i]) /\
    run_transfer laneid cvta op ST self tile map j bar tr = Returned (tr ++ [ins_j]) /\
    coordinates ins_i = Some crd_i /\ coordinates ins_j = Some crd_j /\
    crd_i <> crd_j /\
    disjoint_tiles (encode_call eff) crd_i crd_j.
Proof.
  intros Hok H Hblock Hi Hj Hne Hg.
  apply create_tensor_map_Returned in H as (Htma & Hin & _ & ->); [| assumption | lia].
  pose proof Hok as (HR & _).
  assert (Hii : Int.in_int (i * rows ST)).
  { unfold Int.in_int, Int.INT_MIN, Int.INT_MAX in *. nia. }
  assert (Hjj : Int.in_int (j * rows ST)).
  { unfold Int.in_int, Int.INT_MIN, Int.INT_MAX in *. nia. }
  destruct (transfer_issues laneid cvta op ST self tile map i bar tr Htma HR Hii Hg)
    as (ins_i & Hrun_i & Hcrd_i).
  destruct (transfer_issues laneid cvta op ST self tile map j bar tr Htma HR Hjj Hg)
    as (ins_j & Hrun_j & Hcrd_j).
  exists ins_i, ins_j, (spec_coordinates ST i), (spec_coordinates ST j).
  repeat (split; [assumption |]). split.
  - apply tile_origins_differ; assumption.
  - intros off. apply tile_regions_disjoint; try assumption; lia.
Qed.

End Aliasing.

(** ** Worked instances *)


Lemma example_st_ok_64x64 : st_ok example.st_64x64_swizzled.
Proof. unfold st_ok, Int.INT_MAX. cbn. lia. Qed.

Lemma example_st_ok_128x256 : st_ok example.st_128x256_row.
Proof. unfold st_ok, Int.INT_MAX. cbn. lia. Qed.


Lemma example_st_ok_narrow : st_ok example.st_64x64_narrow_swizzled.
Proof. unfold st_ok, Int.INT_MAX. cbn. lia. Qed.

Ltac in_int := unfold Int.in_int, Int.INT_MIN, Int.INT_MAX; cbn; lia.

(** The specification's blocked-row scenario: [store_async] of tile 1 of a
    128x256 tile addresses (0,0,0,16,0). *)
Example store_async_blocked_row_tile_1 :
  store_async example.laneid example.cvta example.st_128x256_row
    {| threadIdx_x := 0 |} 8192 4096 1 [] =
  Returned [cp_async_bulk_tensor_5d_global_shared 8192 4096 0 0 0 16 0].
Proof. reflexivity. Qed.

(** A tile index whose row offset does not fit [int] has no defined
    coordinate. *)
Example load_async_overflowing_index :
  load_async example.laneid example.cvta example.st_64x64_swizzled
    {| threadIdx_x := 0 |} 4096 8192 (2 ^ 25) 64 [] = Undefined.
Proof. reflexivity. Qed.

(** Witness of C1: the specification's scenario, [load_async] of tile 2 of
    a 64x64 swizzled tile from lane 0 of the second warp, addresses (0, 128). *)
Lemma transfer_coordinates_witness :
  exists ins,
    run_transfer example.laneid example.cvta LoadAsync example.st_64x64_swizzled
      {| threadIdx_x := 32 |} 4096 8192 2 64 [] = Returned ([] ++ [ins]) /\
    coordinates ins = Some (spec_coordinates example.st_64x64_swizzled 2) /\
    (rows example.st_64x64_swizzled mod granularity = 0 ->
     spec_coordinates example.st_64x64_swizzled 2 =
     spec_coordinates_by_rows example.st_64x64_swizzled 2).
Proof.
  apply (transfer_coordinates example.laneid example.cvta LoadAsync
           example.st_64x64_swizzled {| threadIdx_x := 32 |} 4096 8192 2 64 []);
    [reflexivity | unfold Int.INT_MAX; cbn; lia | in_int | reflexivity].
Defined.

(** Witness of C2: a 128x256 blocked-row tile, one block. *)
Lemma create_tensor_map_assembles_witness :
  let eff := encoded (option encode_args) example.encode example.error_string None
               (built_args example.st_128x256_row 1 0) in
  let a := encode_call eff in
  let rank := Z.to_nat (tma_dim a) in
  tma_dim a = spec.dimensionality example.st_128x256_row /\
  global_addr a = 0 /\
  take rank (gmem_shape a) =
    spec.shape example.st_128x256_row
      (spec.global_tile_height example.st_128x256_row 1)
      (spec.global_tile_width example.st_128x256_row) /\
  take (rank - 1) (gmem_stride a) = spec.strides example.st_128x256_row /\
  take rank (smem_shape a) =
    spec.shape example.st_128x256_row (rows example.st_128x256_row)
      (cols example.st_128x256_row) /\
  smem_stride a = [1; 1; 1; 1; 1] /\
  (forall sw, spec.swizzle example.st_128x256_row = Some sw -> tma_swizzle a = sw).
Proof.
  apply (create_tensor_map_assembles (option encode_args) example.encode
           example.error_string example.st_128x256_row 1 None 0);
    [exact example_st_ok_128x256 | lia | vm_compute; reflexivity].
Defined.

(** Counterexample to C3 as stated: a naive 512x64 tile has rows and cols
    that are multiples of 16, one block and an aligned base, and yet the
    assertion on [smem_shape[1]] fails. *)
Lemma tall_tile_fails_assertion :
  detail.st_type_tma_layout example.st_512x64_naive = true /\
  rows example.st_512x64_naive mod granularity = 0 /\
  cols example.st_512x64_naive mod granularity = 0 /\
  create_tensor_map (option encode_args) example.encode example.error_string
    example.st_512x64_naive 1 None 0 = AssertionFailed (assert_smem_shape_256 1).
Proof. repeat split. Qed.

(** Witness of C3 as amended: four 64x64 swizzled tiles, four granules
    wide. *)
Lemma construction_succeeds_witness :
  exists eff,
    create_tensor_map (option encode_args) example.encode example.error_string
      example.st_64x64_swizzled 4 None 0 = Returned eff /\
    reconstructs example.st_64x64_swizzled 4 (encode_call eff).
Proof.
  apply (construction_succeeds (option encode_args) example.encode example.error_string
           example.st_64x64_swizzled 4 None 0);
    [ exact example_st_ok_64x64 | reflexivity | reflexivity | reflexivity
    | unfold box_fits; cbn; lia | unfold granule_fits, sizeof_bf16; cbn; lia
    | lia | in_int | reflexivity ].
Defined.

(** Counterexample to C4 as stated: for a blocked-row tile of 4 rows the
    loads of tiles 0 and 1 issue the same instruction, with the same
    coordinates. *)
Lemma short_tiles_share_coordinates :
  detail.st_type_tma_layout example.st_4x64_row = true /\
  1 <= rows example.st_4x64_row /\
  load_async example.laneid example.cvta example.st_4x64_row
    {| threadIdx_x := 0 |} 4096 8192 0 64 [] =
    Returned [cp_async_bulk_tensor_5d_shared_global 4096 8192 64 0 0 0 0 0] /\
  load_async example.laneid example.cvta example.st_4x64_row
    {| threadIdx_x := 0 |} 4096 8192 1 64 [] =
    Returned [cp_async_bulk_tensor_5d_shared_global 4096 8192 64 0 0 0 0 0].
Proof. repeat split. cbn. lia. Qed.

(** Witness of C4 as amended: stores of tiles 0 and 1 of a 128x256
    blocked-row tensor of two tiles. *)
Lemma tiles_do_not_alias_witness :
  exists ins_i ins_j crd_i crd_j,
    run_transfer example.laneid example.cvta StoreAsync example.st_128x256_row
      {| threadIdx_x := 0 |} 4096 8192 0 64 [] = Returned ([] ++ [ins_i]) /\
    run_transfer example.laneid example.cvta StoreAsync example.st_128x256_row
      {| threadIdx_x := 0 |} 4096 8192 1 64 [] = Returned ([] ++ [ins_j]) /\
    coordinates ins_i = Some crd_i /\ coordinates ins_j = Some crd_j /\
    crd_i <> crd_j /\
    disjoint_tiles
      (encode_call (encoded (option encode_args) example.encode example.error_string None
                      (built_args example.st_128x256_row 2 0)))
      crd_i crd_j.
Proof.
  apply (tiles_do_not_alias (option encode_args) example.encode example.error_string
           example.laneid example.cvta StoreAsync example.st_128x256_row 2 None 0
           (encoded (option encode_args) example.encode example.error_string None
              (built_args example.st_128x256_row 2 0))
           {| threadIdx_x := 0 |} 4096 8192 64 [] 0 1);
    [ exact example_st_ok_128x256 | vm_compute; reflexivity
    | unfold stacking_block; cbn; lia | lia | lia | lia | reflexivity ].
Defined.

(** Witness of C5: a 64x64 swizzled tile declared two granules wide has
    128-byte rows against a 64-byte granule. *)
Lemma swizzle_granule_rejected_witness :
  create_tensor_map (option encode_args) example.encode example.error_string
    example.st_64x64_narrow_swizzled 1 None 0 = AssertionFailed assert_swizzle_size.
Proof.
  apply (proj2 (swizzle_granule_rejected (option encode_args) example.encode
                  example.error_string example.st_64x64_narrow_swizzled 1 None 0
                  example_st_ok_narrow eq_refl
                  ltac:(unfold sizeof_bf16; cbn; lia)));
    [in_int | reflexivity | reflexivity | cbn; lia | cbn; lia].
Defined.


(** Witness of C7: a barrier initialised for loads of a 64x64 tile. *)
Lemma init_barrier_sets_bytes_witness :
  init_barrier example.laneid example.cvta (shared_tile example.st_64x64_col_t)
    {| threadIdx_x := 0 |} 64 1 [] =
  Returned ([] ++ [mbarrier_init (Int.uint32 (example.cvta 64)) 1;
                   mbarrier_arrive_expect_tx (Int.uint32 (example.cvta 64)) 8192]).
Proof.
  apply (proj1 (proj2 (init_barrier_sets_bytes example.laneid example.cvta
                         (shared_tile example.st_64x64_col_t)
                         {| threadIdx_x := 0 |} 64 1 []))
           example.st_64x64_col_t eq_refl eq_refl);
    [cbn; lia | reflexivity].
Defined.

(** Witness of C8: the example driver refuses the swizzle mode of a
    3-granule swizzled tile. *)
Lemma encode_failure_is_reported_witness :
  let eff := encoded (option encode_args) example.encode example.error_string None
               (built_args example.st_16x48_swizzled 1 0) in
  example.encode None (encode_call eff) = (encode_result eff, tma_map_after eff) /\
  (encode_result eff = CUDA_SUCCESS -> cerr eff = EmptyString) /\
  (encode_result eff <> CUDA_SUCCESS ->
     (exists rest, cerr eff = ("Error: " ++ rest)%string) /\
     (forall s, (example.error_string (encode_result eff)).2 = Some s ->
        cerr eff = ("Error: " ++ s ++ endl)%string)).
Proof.
  apply (encode_failure_is_reported (option encode_args) example.encode
           example.error_string example.st_16x48_swizzled 1 None 0).
  vm_compute. reflexivity.
Defined.

(** Witness of C9: hardware reduced to its count of pending store groups. *)
Lemma store_async_wait_fences_witness :
  store_async_wait 1 [cp_async_bulk_commit_group; cp_async_bulk_commit_group] =
    [cp_async_bulk_commit_group; cp_async_bulk_commit_group] ++
    [cp_async_bulk_wait_group 1; syncwarp] /\
  store_async_wait_default [cp_async_bulk_commit_group; cp_async_bulk_commit_group] =
    store_async_wait 0 [cp_async_bulk_commit_group; cp_async_bulk_commit_group] /\
  run example.exec
    (store_async_wait 1 [cp_async_bulk_commit_group; cp_async_bulk_commit_group]) 0 =
    example.exec syncwarp
      (example.exec (cp_async_bulk_wait_group 1)
         (run example.exec [cp_async_bulk_commit_group; cp_async_bulk_commit_group] 0)) /\
  run example.exec
    (store_async_wait 1 [cp_async_bulk_commit_group; cp_async_bulk_commit_group]) 0 <= 1.
Proof.
  apply (store_async_wait_fences Z example.exec (fun h => h)
           ltac:(intros n h; cbn; lia) ltac:(intros h; cbn; lia)
           1 [cp_async_bulk_commit_group; cp_async_bulk_commit_group] 0).
Defined.


(** * Further properties of the code *)

(** ** The layout classifier *)

(** X1. The three layout concepts are mutually exclusive, and a tile type
    is transferable exactly when one of them holds: once the 2D and the
    blocked-row concepts have been ruled out, as the 5D branch of a
    transfer does, a transferable tile is blocked-col-transposed. *)
Theorem layout_concepts_partition ST :
  (detail.st_type_tma_layout ST = true <->
   detail.st_type_2d_tma_layout ST = true \/
   detail.st_type_wgmma_row_layout ST = true \/
   detail.st_type_wgmma_col_t_layout ST = true) /\
  (detail.st_type_2d_tma_layout ST && detail.st_type_wgmma_row_layout ST = false) /\
  (detail.st_type_2d_tma_layout ST && detail.st_type_wgmma_col_t_layout ST = false) /\
  (detail.st_type_wgmma_row_layout ST && detail.st_type_wgmma_col_t_layout ST = false) /\
  (detail.st_type_tma_layout ST = true ->
   detail.st_type_2d_tma_layout ST = false ->
   detail.st_type_wgmma_row_layout ST = false ->
   layout ST = st_layout.wgmma_col_t_0b).
Proof.
  unfold detail.st_type_tma_layout, detail.st_type_2d_tma_layout,
    detail.st_type_wgmma_row_layout, detail.st_type_wgmma_col_t_layout.
  destruct (layout ST); cbn; repeat split; try tauto; try discriminate;
    intros; repeat match goal with H : _ \/ _ |- _ => destruct H end; congruence.
Qed.

(** ** The descriptor builder: every outcome *)

Lemma bind_assert_AssertionFailed {A} (b : bool) w (f : unit -> outcome A) w' :
  (assert b w ≫= f) = AssertionFailed w' ->
  (b = false /\ w' = w) \/ (b = true /\ f tt = AssertionFailed w').
Proof. destruct b; cbn; intros H; [right | left]; split; congruence. Qed.

Lemma constexpr_mul_cases a b :
  (Int.in_int (a * b) /\ constexpr_mul a b = Returned (a * b)) \/
  (~ Int.in_int (a * b) /\ constexpr_mul a b = IllFormed).
Proof.
  unfold constexpr_mul. destruct (Int.in_intb (a * b)) eqn:E.
  - left. split; [apply in_intb_iff; exact E | reflexivity].
  - right. split; [| reflexivity]. intros H. apply in_intb_iff in H. congruence.
Qed.

Lemma bind_assert_defined {A} (b : bool) w (f : unit -> outcome A) :
  f tt <> Undefined -> (assert b w ≫= f) <> Undefined.
Proof. destruct b; cbn; [auto | discriminate]. Qed.

Ltac propify :=
  repeat match goal with
  | H : (_ =? _) = true |- _ => apply Z.eqb_eq in H
  | H : (_ =? _) = false |- _ => apply Z.eqb_neq in H
  | H : (_ <? _) = true |- _ => apply Z.ltb_lt in H
  | H : (_ <? _) = false |- _ => apply Z.ltb_ge in H
  | H : (_ <=? _) = true |- _ => apply Z.leb_le in H
  | H : (_ <=? _) = false |- _ => apply Z.leb_gt in H
  end.

Ltac pass_known :=
  repeat (rewrite bind_assert_true by
            (first [reflexivity | apply Z.eqb_eq; zlia | apply Z.leb_le; zlia])).

Ltac fail_here :=
  pass_known;
  rewrite bind_assert_false by
    (first [reflexivity | apply Z.eqb_neq; zlia | apply Z.leb_gt; zlia]);
  reflexivity.

Section Outcomes.

Variable CUtensorMap : Type.
Variable encode : CUtensorMap -> encode_args -> CUresult * CUtensorMap.
Variable errstr : CUresult -> CUresult * option string.

(** X2. For a transferable tile type with positive [int] constants and a
    representable global height, the builder fails exactly the first
    assertion that [verdict] names (alignment, then [cols] a multiple of
    8, then the 256-element limit on the box dimensions 0, 1, 3, 4, then
    the swizzle granule), and returns with the closed-form arguments when
    there is none. *)
Theorem create_tensor_map_verdict ST nb m src :
  st_ok ST -> detail.st_type_tma_layout ST = true ->
  0 <= nb -> Int.in_int (nb * rows ST) ->
  create_tensor_map CUtensorMap encode errstr ST nb m src =
  match verdict ST src with
  | Some w => AssertionFailed w
  | None => Returned (encoded CUtensorMap encode errstr m (built_args ST nb src))
  end.
Proof.
  intros (Hr & Hc & Hw & Hw32) Htma Hnb Hin.
  pose proof Hin as Hin'. unfold Int.in_int, Int.INT_MIN, Int.INT_MAX in Hin'.
  destruct ST as [r c w l sz]. cbn in Hr, Hc, Hw, Hw32, Hin, Hin'.
  unfold Int.INT_MAX in *.
  assert (Hsw : constexpr_mul w 32 = Returned (w * 32)).
  { apply constexpr_mul_Returned. unfold Int.in_int, Int.INT_MIN, Int.INT_MAX. lia. }
  assert (Hh : constexpr_mul nb r = Returned (nb * r)).
  { apply constexpr_mul_Returned. auto. }
  unfold create_tensor_map, verdict, box_extent. unfold_spec.
  destruct l; try discriminate Htma; cbn;
    try match goal with |- context [w =? 1] =>
      destruct (w =? 1) eqn:E1; [| destruct (w =? 2) eqn:E2; [| destruct (w =? 4) eqn:E4]];
      cbn end;
    rewrite Hh; cbn; rewrite ?Hsw; cbn;
    unfold sizeof_bf16 in *; rewrite land_15, !uint64_mod16; drop_casts;
    (destruct (src mod 16 =? 0) eqn:C1; cbn [negb]; propify; [| fail_here]);
    (destruct (c mod 8 =? 0) eqn:C2; cbn [negb]; propify; [| fail_here]);
    repeat match goal with
    | |- context [if 256 <? ?x then _ else _] =>
        destruct (256 <? x) eqn:?C; propify; [fail_here |]
    end;
    try (destruct (w * 32 <? c * 2) eqn:C7; propify; [fail_here |]);
    pass_known; cbn;
    destruct (encode m _) as [res m'] eqn:Eenc;
    destruct (errstr res) as [res' s] eqn:Eerr;
    cbn; rewrite ?Eenc; cbn; rewrite ?Eerr; reflexivity.
Qed.

Ltac is_live := solve [unfold live_assertions; cbn; repeat first [left; reflexivity | right]].

Ltac is_dead Hb :=
  exfalso; first [discriminate Hb |
    propify; rewrite ?uint64_mod16 in *; unfold Int.uint32, sizeof_bf16 in *; zlia].

Ltac walk H :=
  repeat (let Hb := fresh "Hb" in
          apply bind_assert_AssertionFailed in H as [[Hb ->] | [Hb H]];
          [first [is_live | is_dead Hb] |]).

(** X3. Whatever the tile constants, block count and base address, the
    only assertions of the builder that can fail are the alignment of the
    base, the 16-byte multiple of [gmem_stride[0]], the 256-element limit
    on the box dimensions 0, 1, 3 and 4, and the swizzle granule: the
    assertions on [gmem_stride[1..3]], on [smem_shape[2]], on the 16-byte
    row size and on [smem_stride] never fire. *)
Theorem only_live_assertions_fail ST nb m src w :
  create_tensor_map CUtensorMap encode errstr ST nb m src = AssertionFailed w ->
  In w live_assertions.
Proof.
  unfold create_tensor_map. destruct ST as [r c wd l sz].
  destruct l; cbn;
    try match goal with |- context [wd =? 1] =>
      destruct (wd =? 1); [| destruct (wd =? 2); [| destruct (wd =? 4)]]; cbn end;
    intros H; try discriminate H;
    (destruct (constexpr_mul_cases nb r) as [[_ Hh] | [_ Hh]];
     rewrite Hh in H; cbn in H; try discriminate H);
    try (destruct (constexpr_mul_cases wd 32) as [[_ Hs] | [_ Hs]];
         rewrite Hs in H; cbn in H; try discriminate H);
    walk H;
    destruct (encode m _) as [res m']; destruct (errstr res) as [res' s];
    discriminate H.
Qed.

(** X4. The instantiation of the builder fails to compile exactly when the
    tile type is not transferable, or [num_blocks * rows] overflows [int],
    or the layout is swizzled and [width * 32] overflows [int]; no run-time
    input takes part, and signed overflow never happens at run time. *)
Theorem static_rejection_iff ST nb m src :
  (create_tensor_map CUtensorMap encode errstr ST nb m src = IllFormed <->
   detail.st_type_tma_layout ST = false \/
   ~ Int.in_int (nb * rows ST) \/
   (layout ST = st_layout.tma_swizzle /\ ~ Int.in_int (width ST * 32))) /\
  create_tensor_map CUtensorMap encode errstr ST nb m src <> Undefined.
Proof.
  unfold create_tensor_map. destruct ST as [r c wd l sz].
  destruct l; cbn;
    try match goal with |- context [wd =? 1] =>
      destruct (wd =? 1); [| destruct (wd =? 2); [| destruct (wd =? 4)]]; cbn end;
    try (split; [split; [intros _; left; reflexivity | reflexivity] | discriminate]);
    (destruct (constexpr_mul_cases nb r) as [[Hin Hh] | [Hin Hh]]; rewrite Hh; cbn;
     [| split; [split; [intros _; right; left; exact Hin | reflexivity] | discriminate]]);
    try (destruct (constexpr_mul_cases wd 32) as [[Hw Hs] | [Hw Hs]]; rewrite Hs; cbn;
         [| split; [split; [intros _; right; right; split; [reflexivity | exact Hw]
                           | reflexivity] | discriminate]]);
    (split; [split; [intros H; exfalso; revert H; repeat apply bind_assert_compiles;
                     destruct (encode m _) as [res m']; destruct (errstr res) as [res' s];
                     discriminate
                    | intros [Hp | [Hp | [Hp1 Hp2]]];
                      first [discriminate | contradiction] ]
            | repeat apply bind_assert_defined;
              destruct (encode m _) as [res m']; destruct (errstr res) as [res' s];
              discriminate ]).
Qed.

End Outcomes.

(** ** Tiles against the global shape *)

Section Bounds.

Variable CUtensorMap : Type.
Variable encode : CUtensorMap -> encode_args -> CUresult * CUtensorMap.
Variable errstr : CUresult -> CUresult * option string.
Variable laneid : thread -> Z.
Variable cvta : Z -> Z.

Lemma blocks_below n d i nb :
  0 < d -> 0 <= n -> 0 <= i < nb -> i * (n / d) + n / d <= nb * n / d.
Proof.
  intros Hd Hn Hi. apply Z.div_le_lower_bound; [lia |].
  assert (d * (n / d) <= n) by (apply Z.mul_div_le; lia).
  assert (0 <= n / d) by (apply Z.div_pos; lia). nia.
Qed.

(** X5. For a descriptor built for [num_blocks] tiles and a tile index
    below [num_blocks], the coordinate tuple a transfer issues has the rank
    of the descriptor and its box lies inside the global shape, whether or
    not the rows are a multiple of the layout's block. *)
Theorem tile_box_within_tensor op ST nb m src eff self tile map bar tr i :
  st_ok ST ->
  create_tensor_map CUtensorMap encode errstr ST nb m src = Returned eff ->
  0 <= i < nb ->
  issues_from laneid op self = true ->
  exists ins crd_i,
    run_transfer laneid cvta op ST self tile map i bar tr = Returned (tr ++ [ins]) /\
    coordinates ins = Some crd_i /\
    length crd_i = Z.to_nat (tma_dim (encode_call eff)) /\
    forall crd, in_tile (encode_call eff) crd_i crd -> in_tensor (encode_call eff) crd.
Proof.
  intros Hok H Hi Hg.
  apply create_tensor_map_Returned in H as (Htma & Hin & _ & ->); [| assumption | lia].
  pose proof Hok as (HR & HC & _).
  assert (Hii : Int.in_int (i * rows ST)).
  { unfold Int.in_int, Int.INT_MIN, Int.INT_MAX in *. nia. }
  destruct (transfer_issues laneid cvta op ST self tile map i bar tr Htma HR Hii Hg)
    as (ins & Hrun & Hcrd).
  exists ins, (spec_coordinates ST i). split; [exact Hrun | split; [exact Hcrd |]].
  change (encode_call (encoded CUtensorMap encode errstr m (built_args ST nb src)))
    with (built_args ST nb src).
  clear Hrun Hcrd Hin Hii Hg Hok.
  unfold_addressing. destruct ST as [R C w l sz]. cbn [rows cols layout] in *.
  destruct l; try discriminate Htma; cbn;
    change (Z.to_nat 2) with 2%nat; change (Z.to_nat 5) with 5%nat;
    (split; [reflexivity |]); intros crd H; open_box H crd; cbn.
  - repeat split; nia.
  - repeat split; nia.
  - pose proof (blocks_below R 8 i nb ltac:(lia) ltac:(lia) Hi).
    assert (0 <= i * (R / 8)) by (apply Z.mul_nonneg_nonneg; [lia | apply Z.div_pos; lia]).
    repeat split; lia.
  - pose proof (blocks_below R 16 i nb ltac:(lia) ltac:(lia) Hi).
    assert (0 <= i * (R / 16)) by (apply Z.mul_nonneg_nonneg; [lia | apply Z.div_pos; lia]).
    repeat split; lia.
Qed.

(** X6. The transfers check no bound: for rows a multiple of the layout's
    block and a tile index that is negative or not below [num_blocks], the
    instruction is issued all the same, and no coordinate of its box lies
    inside the global shape. *)
Theorem tile_index_unchecked op ST nb m src eff self tile map bar tr i :
  st_ok ST ->
  create_tensor_map CUtensorMap encode errstr ST nb m src = Returned eff ->
  0 <= nb -> rows ST mod stacking_block ST = 0 ->
  i < 0 \/ nb <= i -> Int.in_int (i * rows ST) ->
  issues_from laneid op self = true ->
  exists ins crd_i,
    run_transfer laneid cvta op ST self tile map i bar tr = Returned (tr ++ [ins]) /\
    coordinates ins = Some crd_i /\
    forall crd, in_tile (encode_call eff) crd_i crd -> ~ in_tensor (encode_call eff) crd.
Proof.
  intros Hok H Hnb Hdiv Hi Hii Hg.
  apply create_tensor_map_Returned in H as (Htma & Hin & _ & ->); [| assumption | lia].
  pose proof Hok as (HR & HC & _).
  destruct (transfer_issues laneid cvta op ST self tile map i bar tr Htma HR Hii Hg)
    as (ins & Hrun & Hcrd).
  exists ins, (spec_coordinates ST i). split; [exact Hrun | split; [exact Hcrd |]].
  change (encode_call (encoded CUtensorMap encode errstr m (built_args ST nb src)))
    with (built_args ST nb src).
  clear Hrun Hcrd Hin Hii Hg Hok.
  unfold_addressing. unfold stacking_block in *.
  destruct ST as [R C w l sz]. cbn [rows cols layout] in *.
  destruct l; try discriminate Htma; cbn;
    change (Z.to_nat 2) with 2%nat; change (Z.to_nat 5) with 5%nat;
    intros crd H H'; open_box H crd; cbn in H'.
  - nia.
  - nia.
  - assert (E : R = 8 * (R / 8)) by zlia.
    assert (E' : nb * R / 8 = nb * (R / 8)).
    { rewrite E at 1. replace (nb * (8 * (R / 8))) with (nb * (R / 8) * 8) by lia.
      apply Z.div_mul. lia. }
    rewrite E' in H'. assert (0 < R / 8) by zlia. nia.
  - assert (E : R = 16 * (R / 16)) by zlia.
    assert (E' : nb * R / 16 = nb * (R / 16)).
    { rewrite E at 1. replace (nb * (16 * (R / 16))) with (nb * (R / 16) * 16) by lia.
      apply Z.div_mul. lia. }
    rewrite E' in H'. assert (0 < R / 16) by zlia. nia.
Qed.

(** X7. Consecutive tiles abut: the coordinates issued for tile [i + 1]
    are those for tile [i] moved along the stacking axis by exactly the
    extent of the descriptor's shared-memory box on that axis. *)
Theorem consecutive_tiles_abut op ST nb m src eff self tile map bar tr i :
  st_ok ST ->
  create_tensor_map CUtensorMap encode errstr ST nb m src = Returned eff ->
  0 <= nb -> Int.in_int (i * rows ST) -> Int.in_int ((i + 1) * rows ST) ->
  issues_from laneid op self = true ->
  exists ins ins' crd_i,
    run_transfer laneid cvta op ST self tile map i bar tr = Returned (tr ++ [ins]) /\
    run_transfer laneid cvta op ST self tile map (i + 1) bar tr = Returned (tr ++ [ins']) /\
    coordinates ins = Some crd_i /\
    coordinates ins' =
      Some (<[stacking_axis ST :=
                crd_i !!! stacking_axis ST + smem_shape (encode_call eff) !!! stacking_axis ST]>
              crd_i).
Proof.
  intros Hok H Hnb Hi Hi' Hg.
  apply create_tensor_map_Returned in H as (Htma & Hin & _ & ->); [| assumption | lia].
  pose proof Hok as (HR & HC & _).
  destruct (transfer_issues laneid cvta op ST self tile map i bar tr Htma HR Hi Hg)
    as (ins & Hrun & Hcrd).
  destruct (transfer_issues laneid cvta op ST self tile map (i + 1) bar tr Htma HR Hi' Hg)
    as (ins' & Hrun' & Hcrd').
  exists ins, ins', (spec_coordinates ST i).
  split; [exact Hrun | split; [exact Hrun' | split; [exact Hcrd |]]].
  rewrite Hcrd'. f_equal.
  unfold spec_coordinates, stacking_axis, encoded, built_args, pad, spec.shape.
  destruct ST as [R C w l sz]. cbn [rows cols layout] in *.
  destruct l; try discriminate Htma; cbn; repeat f_equal; lia.
Qed.

End Bounds.

Section Box.

Variable CUtensorMap : Type.
Variable encode : CUtensorMap -> encode_args -> CUresult * CUtensorMap.
Variable errstr : CUresult -> CUresult * option string.

(** X8. The shared-memory box of a built descriptor never holds more than
    the [rows * cols] elements of the tile, and holds exactly that many if
    and only if rows and cols are multiples of the layout's blocks (8 and
    16 for blocked-row, 16 and 8 for blocked-col-transposed): the builder
    has no assertion for this, and a partial block is left out of the box. *)
Theorem box_holds_tile_iff ST nb m src eff :
  st_ok ST -> 0 <= nb ->
  create_tensor_map CUtensorMap encode errstr ST nb m src = Returned eff ->
  box_elements (encode_call eff) <= rows ST * cols ST /\
  (box_elements (encode_call eff) = rows ST * cols ST <->
   rows ST mod stacking_block ST = 0 /\ cols ST mod column_block ST = 0).
Proof.
  intros Hok Hnb H.
  apply create_tensor_map_Returned in H as (Htma & _ & _ & ->); [| assumption | lia].
  destruct Hok as (HR & HC & _).
  unfold box_elements, encoded, built_args, pad, spec.shape, spec.dimensionality,
    spec.is_2D, stacking_block, column_block.
  destruct ST as [R C w l sz]. cbn [rows cols layout] in *.
  destruct l; try discriminate Htma; cbn;
    change (Z.to_nat 2) with 2%nat; change (Z.to_nat 5) with 5%nat; cbn.
  - rewrite !Z.mod_1_r. split; [lia | split; [intros; split; reflexivity | lia]].
  - rewrite !Z.mod_1_r. split; [lia | split; [intros; split; reflexivity | lia]].
  - destruct (split_8 R) as (q & r0 & ER & Hr0).
    assert (EC : C = 16 * (C / 16) + C mod 16) by zlia.
    assert (Hc0 : 0 <= C mod 16 < 16) by zlia.
    assert (Eq : R / 8 = q) by zlia. assert (Er : R mod 8 = r0) by zlia.
    rewrite Eq, Er. generalize dependent (C mod 16). generalize dependent (C / 16).
    intros k c0 EC Hc0. subst R C. clear Eq Er.
    assert (0 <= q) by lia. assert (0 <= k) by lia.
    split; [nia |]. split; [intros E; split; nia | intros [-> ->]; lia].
  - destruct (split_8 C) as (k & c0 & EC & Hc0).
    assert (ER : R = 16 * (R / 16) + R mod 16) by zlia.
    assert (Hr0 : 0 <= R mod 16 < 16) by zlia.
    assert (Eq : C / 8 = k) by zlia. assert (Er : C mod 8 = c0) by zlia.
    rewrite Eq, Er. generalize dependent (R mod 16). generalize dependent (R / 16).
    intros q r0 ER Hr0. subst R C. clear Eq Er.
    assert (0 <= q) by lia. assert (0 <= k) by lia.
    split; [nia |]. split; [intros E; split; nia | intros [-> ->]; lia].
Qed.

End Box.

(** ** Transfers, barriers and store groups together *)

Section Rounds.

Variable laneid : thread -> Z.
Variable cvta : Z -> Z.

(** X9. [prefetch] is guarded by [threadIdx.x == 0] where its siblings
    are guarded by the lane id: the first lane of any warp but the first
    issues the load and the store of a tile, and no prefetch for it. *)
Theorem prefetch_only_from_thread_zero ST self tile map i bar tr :
  detail.st_type_tma_layout ST = true ->
  0 < rows ST <= Int.INT_MAX -> Int.in_int (i * rows ST) ->
  laneid self = 0 -> threadIdx_x self <> 0 ->
  prefetch ST self tile map i tr = Returned tr /\
  (exists ins, store_async laneid cvta ST self map tile i tr = Returned (tr ++ [ins])) /\
  (exists ins, load_async laneid cvta ST self tile map i bar tr = Returned (tr ++ [ins])).
Proof.
  intros Htma HR Hi Hl Ht. split; [| split].
  - apply (transfer_idle laneid cvta Prefetch ST self tile map i bar tr Htma).
    cbn. apply Z.eqb_neq. exact Ht.
  - destruct (transfer_issues laneid cvta StoreAsync ST self tile map i bar tr Htma HR Hi)
      as (ins & Hrun & _); [cbn; apply Z.eqb_eq; exact Hl |].
    exists ins. exact Hrun.
  - destruct (transfer_issues laneid cvta LoadAsync ST self tile map i bar tr Htma HR Hi)
      as (ins & Hrun & _); [cbn; apply Z.eqb_eq; exact Hl |].
    exists ins. exact Hrun.
Qed.

(** X10. A transfer only appends: when it returns, the instructions issued
    before are kept in order, at most one is added, and the one added does
    not depend on what was issued before. *)
Theorem transfer_appends op ST self tile map i bar tr tr' :
  run_transfer laneid cvta op ST self tile map i bar tr = Returned tr' ->
  exists l, tr' = tr ++ l /\ (length l <= 1)%nat /\
    forall tr0, run_transfer laneid cvta op ST self tile map i bar tr0 = Returned (tr0 ++ l).
Proof.
  destruct op; cbn; unfold prefetch, store_async, load_async;
    (destruct (detail.st_type_tma_layout ST); cbn; [| discriminate]);
    match goal with |- context [if ?g then _ else _] => destruct g end;
    try (intros [= <-]; exists []; rewrite app_nil_r; repeat split; [cbn; lia |];
         intros tr0; rewrite app_nil_r; reflexivity);
    destruct (detail.st_type_2d_tma_layout ST); cbn;
    try destruct (detail.st_type_wgmma_row_layout ST); cbn;
    repeat match goal with
    | |- context [int_mul ?a ?b] => destruct (int_mul a b); cbn; try discriminate
    end;
    intros [= <-]; eexists; (split; [reflexivity | split; [cbn; lia | reflexivity]]).
Qed.

(** X11. [init_barrier] for a transferable tile type is [init_barrier]
    for the default type followed by [set_barrier_bytes] with the size of
    the tile, from every thread. *)
Theorem init_barrier_composes ST self barrier tc tr :
  detail.st_type_tma_layout ST = true ->
  init_barrier laneid cvta (shared_tile ST) self barrier tc tr =
  (tr' ← init_barrier laneid cvta default_type self barrier tc tr;
   mret (set_barrier_bytes laneid cvta self barrier (Int.uint32 (sizeof_st ST)) tr')).
Proof.
  intros Htma. unfold init_barrier, set_barrier_bytes. cbn. rewrite Htma. cbn.
  destruct (laneid self =? 0) eqn:E; cbn; rewrite ?Htma, ?E; reflexivity.
Qed.

(** X12. A store round ([store_async], [store_commit_group],
    [store_async_wait<N>]): the issuing lane adds the copy of the tile and
    the commit before the wait and the warp barrier; every other lane adds
    the wait and the warp barrier only, so all lanes of the warp reach the
    barrier. *)
Theorem store_round ST self dst_tma_map src i N tr :
  detail.st_type_tma_layout ST = true ->
  0 < rows ST <= Int.INT_MAX -> Int.in_int (i * rows ST) ->
  exists l,
    (tr1 ← store_async laneid cvta ST self dst_tma_map src i tr;
     mret (store_async_wait N (store_commit_group laneid self tr1))) =
    Returned (tr ++ l ++ [cp_async_bulk_wait_group N; syncwarp]) /\
    (laneid self = 0 ->
     exists ins, l = [ins; cp_async_bulk_commit_group] /\
       coordinates ins = Some (spec_coordinates ST i)) /\
    (laneid self <> 0 -> l = []).
Proof.
  intros Htma HR Hi. unfold store_async_wait, store_commit_group.
  destruct (laneid self =? 0) eqn:E.
  - destruct (transfer_issues laneid cvta StoreAsync ST self src dst_tma_map i 0 tr
                Htma HR Hi) as (ins & Hrun & Hcrd); [exact E |].
    cbn in Hrun. exists [ins; cp_async_bulk_commit_group]. rewrite Hrun. cbn. split.
    + rewrite <- !app_assoc. reflexivity.
    + split; [intros _; exists ins; auto | intros Hne; apply Z.eqb_eq in E; contradiction].
  - exists []. split.
    + pose proof (transfer_idle laneid cvta StoreAsync ST self src dst_tma_map i 0 tr
                    Htma E) as Hrun.
      cbn in Hrun. rewrite Hrun. cbn. rewrite <- app_assoc. reflexivity.
    + split; [intros Hl; apply Z.eqb_neq in E; contradiction | reflexivity].
Qed.

(** X13. A load round ([init_barrier] for the tile type, then
    [load_async]) from the issuing lane: the barrier is initialised with
    the arrival count and armed with the size of the tile before the copy
    is issued, and the three instructions name the same barrier; from any
    other lane the round issues nothing. *)
Theorem load_round ST self dst src_tma_map i barrier tc tr :
  detail.st_type_tma_layout ST = true ->
  0 < rows ST <= Int.INT_MAX -> Int.in_int (i * rows ST) ->
  0 <= sizeof_st ST < 2 ^ 32 ->
  let bar_ptr := Int.uint32 (cvta barrier) in
  let round :=
    tr1 ← init_barrier laneid cvta (shared_tile ST) self barrier tc tr;
    load_async laneid cvta ST self dst src_tma_map i barrier tr1 in
  (laneid self = 0 ->
   exists ins,
     round = Returned (tr ++ [mbarrier_init bar_ptr tc;
                              mbarrier_arrive_expect_tx bar_ptr (sizeof_st ST); ins]) /\
     barrier_operand ins = Some bar_ptr /\
     coordinates ins = Some (spec_coordinates ST i)) /\
  (laneid self <> 0 -> round = Returned tr).
Proof.
  intros Htma HR Hi Hsz. cbv zeta. split.
  - intros Hl. apply Z.eqb_eq in Hl.
    unfold init_barrier, set_barrier_bytes. cbn. rewrite Htma. cbn.
    repeat (rewrite ?Htma, ?Hl; cbn). rewrite (uint32_small (sizeof_st ST)) by exact Hsz.
    pose proof (block_count_in_int i (rows ST) 8 ltac:(lia) ltac:(lia) Hi) as Hi8.
    pose proof (block_count_in_int i (rows ST) 16 ltac:(lia) ltac:(lia) Hi) as Hi16.
    unfold load_async, spec_coordinates. repeat (rewrite ?Htma, ?Hl; cbn).
    destruct ST as [r c w l sz]. cbn in *.
    destruct l; try discriminate Htma; cbn;
      rewrite ?int_div_nonneg by lia;
      rewrite ?int_mul_defined by assumption; cbn;
      eexists; (split; [rewrite <- !app_assoc; reflexivity | split; reflexivity]).
  - intros Hl. apply Z.eqb_neq in Hl.
    unfold init_barrier, load_async. cbn.
    repeat (rewrite ?Htma, ?Hl; cbn). reflexivity.
Qed.

End Rounds.

(** ** Waiting on a barrier *)

Section Waiting.

Variable hw : Type.
Variable try_wait : Z -> Z -> hw -> bool * hw.
Variable cvta : Z -> Z.

Lemma after_polls_shift k barrier phase h :
  after_polls hw try_wait cvta (S k) barrier phase h =
  after_polls hw try_wait cvta k barrier phase
    (try_wait (Int.uint32 (cvta barrier)) phase h).2.
Proof.
  induction k as [| k IH]; [reflexivity |].
  change (after_polls hw try_wait cvta (S (S k)) barrier phase h)
    with (try_wait (Int.uint32 (cvta barrier)) phase
            (after_polls hw try_wait cvta (S k) barrier phase h)).2.
  rewrite IH. reflexivity.
Qed.

Lemma poll_shift k barrier phase h :
  poll hw try_wait cvta (S k) barrier phase h =
  poll hw try_wait cvta k barrier phase (try_wait (Int.uint32 (cvta barrier)) phase h).2.
Proof. unfold poll. rewrite after_polls_shift. reflexivity. Qed.

(** X14. [arrive_and_wait] returns exactly at the first poll on which
    [try_wait] sets its predicate: if the polls before the [k]-th fail and
    the [k]-th succeeds, every bound above [k] gives the state left by that
    poll; and a call that returns has made such a first successful poll. *)
Theorem arrive_and_wait_returns_at_first_success barrier phase h :
  (forall k, (forall j, (j < k)%nat -> poll hw try_wait cvta j barrier phase h = false) ->
     poll hw try_wait cvta k barrier phase h = true ->
     forall fuel, (k < fuel)%nat ->
       arrive_and_wait hw try_wait cvta fuel barrier phase h =
       Some (after_polls hw try_wait cvta (S k) barrier phase h)) /\
  (forall fuel h',
     arrive_and_wait hw try_wait cvta fuel barrier phase h = Some h' ->
     exists k, (k < fuel)%nat /\
       (forall j, (j < k)%nat -> poll hw try_wait cvta j barrier phase h = false) /\
       poll hw try_wait cvta k barrier phase h = true /\
       h' = after_polls hw try_wait cvta (S k) barrier phase h).
Proof.
  unfold arrive_and_wait. split.
  - intros k. revert h. induction k as [| k IH]; intros h Hbefore Hk fuel Hfuel.
    + destruct fuel as [| fuel]; [lia |]. cbn. unfold poll in Hk. cbn in Hk.
      destruct (try_wait _ phase h) as [P1 h1]. cbn in Hk. subst P1. reflexivity.
    + destruct fuel as [| fuel]; [lia |].
      pose proof (Hbefore O ltac:(lia)) as H0. unfold poll in H0. cbn in H0.
      rewrite (after_polls_shift (S k)). cbn [LAB_WAIT].
      destruct (try_wait _ phase h) as [P1 h1] eqn:E. cbn in H0. subst P1.
      cbn [snd]. apply IH; [| | lia].
      * intros j Hj. specialize (Hbefore (S j) ltac:(lia)).
        rewrite poll_shift, E in Hbefore. exact Hbefore.
      * rewrite poll_shift, E in Hk. exact Hk.
  - intros fuel. revert h. induction fuel as [| fuel IH]; intros h h' H; [discriminate |].
    cbn in H. destruct (try_wait _ phase h) as [P1 h1] eqn:E. destruct P1.
    + inversion H. subst h'. exists O. repeat split.
      * lia.
      * intros j Hj. lia.
      * unfold poll. cbn. rewrite E. reflexivity.
      * cbn. rewrite E. reflexivity.
    + destruct (IH h1 h' H) as (k & Hk & Hbefore & Hat & ->).
      exists (S k). repeat split.
      * lia.
      * intros [| j] Hj.
        -- unfold poll. cbn. rewrite E. reflexivity.
        -- rewrite poll_shift, E. apply Hbefore. lia.
      * rewrite poll_shift, E. exact Hat.
      * rewrite (after_polls_shift (S k)), E. reflexivity.
Qed.

(** X15. [arrive_and_wait] has no timeout: on a barrier whose polls never
    succeed (a stale phase bit), no bound on the number of polls lets it
    return. *)
Theorem arrive_and_wait_spins barrier phase h :
  (forall k, poll hw try_wait cvta k barrier phase h = false) ->
  forall fuel, arrive_and_wait hw try_wait cvta fuel barrier phase h = None.
Proof.
  intros Hnever fuel. unfold arrive_and_wait. revert h Hnever.
  induction fuel as [| fuel IH]; intros h Hnever; [reflexivity |].
  cbn. pose proof (Hnever O) as H0. unfold poll in H0. cbn in H0.
  destruct (try_wait _ phase h) as [P1 h1] eqn:E. cbn in H0. subst P1.
  apply IH. intros k. specialize (Hnever (S k)). rewrite poll_shift, E in Hnever.
  exact Hnever.
Qed.

End Waiting.

(** ** Worked instances of the further properties *)

Lemma example_st_ok_512x64 : st_ok example.st_512x64_naive.
Proof. unfold st_ok, Int.INT_MAX. cbn. lia. Qed.

Lemma example_st_ok_64x24 : st_ok example_barrier.st_64x24_row.
Proof. unfold st_ok, Int.INT_MAX. cbn. lia. Qed.

(** Witness of X2: a naive 512x64 tile stops at the limit on
    [smem_shape[1]]. *)
Lemma create_tensor_map_verdict_witness :
  create_tensor_map (option encode_args) example.encode example.error_string
    example.st_512x64_naive 1 None 0 =
  match verdict example.st_512x64_naive 0 with
  | Some w => AssertionFailed w
  | None => Returned (encoded (option encode_args) example.encode example.error_string
                        None (built_args example.st_512x64_naive 1 0))
  end.
Proof.
  apply (create_tensor_map_verdict (option encode_args) example.encode
           example.error_string example.st_512x64_naive 1 None 0);
    [exact example_st_ok_512x64 | reflexivity | lia | in_int].
Defined.

(** Witness of X3: the assertion that stops the naive 512x64 tile. *)
Lemma only_live_assertions_fail_witness :
  In (assert_smem_shape_256 1) live_assertions.
Proof.
  apply (only_live_assertions_fail (option encode_args) example.encode
           example.error_string example.st_512x64_naive 1 None 0).
  vm_compute. reflexivity.
Defined.

(** Witness of X5: the last of four 64x64 swizzled tiles. *)
Lemma tile_box_within_tensor_witness :
  let eff := encoded (option encode_args) example.encode example.error_string None
               (built_args example.st_64x64_swizzled 4 0) in
  exists ins crd_i,
    run_transfer example.laneid example.cvta LoadAsync example.st_64x64_swizzled
      {| threadIdx_x := 0 |} 4096 8192 3 64 [] = Returned ([] ++ [ins]) /\
    coordinates ins = Some crd_i /\
    length crd_i = Z.to_nat (tma_dim (encode_call eff)) /\
    forall crd, in_tile (encode_call eff) crd_i crd -> in_tensor (encode_call eff) crd.
Proof.
  apply (tile_box_within_tensor (option encode_args) example.encode example.error_string
           example.laneid example.cvta LoadAsync example.st_64x64_swizzled 4 None 0
           (encoded (option encode_args) example.encode example.error_string None
              (built_args example.st_64x64_swizzled 4 0))
           {| threadIdx_x := 0 |} 4096 8192 64 [] 3);
    [exact example_st_ok_64x64 | vm_compute; reflexivity | lia | reflexivity].
Defined.

(** Witness of X6: tile index 4 of a tensor of four tiles. *)
Lemma tile_index_unchecked_witness :
  let eff := encoded (option encode_args) example.encode example.error_string None
               (built_args example.st_64x64_swizzled 4 0) in
  exists ins crd_i,
    run_transfer example.laneid example.cvta LoadAsync example.st_64x64_swizzled
      {| threadIdx_x := 0 |} 4096 8192 4 64 [] = Returned ([] ++ [ins]) /\
    coordinates ins = Some crd_i /\
    forall crd, in_tile (encode_call eff) crd_i crd -> ~ in_tensor (encode_call eff) crd.
Proof.
  apply (tile_index_unchecked (option encode_args) example.encode example.error_string
           example.laneid example.cvta LoadAsync example.st_64x64_swizzled 4 None 0
           (encoded (option encode_args) example.encode example.error_string None
              (built_args example.st_64x64_swizzled 4 0))
           {| threadIdx_x := 0 |} 4096 8192 64 [] 4);
    [ exact example_st_ok_64x64 | vm_compute; reflexivity | lia | reflexivity
    | right; lia | in_int | reflexivity ].
Defined.

(** Witness of X7: tiles 0 and 1 of a 128x256 blocked-row tensor. *)
Lemma consecutive_tiles_abut_witness :
  let eff := encoded (option encode_args) example.encode example.error_string None
               (built_args example.st_128x256_row 2 0) in
  exists ins ins' crd_i,
    run_transfer example.laneid example.cvta StoreAsync example.st_128x256_row
      {| threadIdx_x := 0 |} 4096 8192 0 64 [] = Returned ([] ++ [ins]) /\
    run_transfer example.laneid example.cvta StoreAsync example.st_128x256_row
      {| threadIdx_x := 0 |} 4096 8192 (0 + 1) 64 [] = Returned ([] ++ [ins']) /\
    coordinates ins = Some crd_i /\
    coordinates ins' =
      Some (<[stacking_axis example.st_128x256_row :=
                crd_i !!! stacking_axis example.st_128x256_row +
                smem_shape (encode_call eff) !!! stacking_axis example.st_128x256_row]>
              crd_i).
Proof.
  apply (consecutive_tiles_abut (option encode_args) example.encode example.error_string
           example.laneid example.cvta StoreAsync example.st_128x256_row 2 None 0
           (encoded (option encode_args) example.encode example.error_string None
              (built_args example.st_128x256_row 2 0))
           {| threadIdx_x := 0 |} 4096 8192 64 [] 0);
    [ exact example_st_ok_128x256 | vm_compute; reflexivity | lia | in_int | in_int
    | reflexivity ].
Defined.

(** Witness of X8: a blocked-row tile of 24 columns passes every check,
    and its box holds 16 of them. *)
Lemma box_holds_tile_iff_witness :
  let eff := encoded (option encode_args) example.encode example.error_string None
               (built_args example_barrier.st_64x24_row 1 0) in
  box_elements (encode_call eff) <=
    rows example_barrier.st_64x24_row * cols example_barrier.st_64x24_row /\
  (box_elements (encode_call eff) =
     rows example_barrier.st_64x24_row * cols example_barrier.st_64x24_row <->
   rows example_barrier.st_64x24_row mod stacking_block example_barrier.st_64x24_row = 0 /\
   cols example_barrier.st_64x24_row mod column_block example_barrier.st_64x24_row = 0).
Proof.
  apply (box_holds_tile_iff (option encode_args) example.encode example.error_string
           example_barrier.st_64x24_row 1 None 0);
    [exact example_st_ok_64x24 | lia | vm_compute; reflexivity].
Defined.

(** Witness of X9: thread 32, the first lane of the second warp. *)
Lemma prefetch_only_from_thread_zero_witness :
  prefetch example.st_64x64_swizzled {| threadIdx_x := 32 |} 4096 8192 2 [] = Returned [] /\
  (exists ins,
     store_async example.laneid example.cvta example.st_64x64_swizzled
       {| threadIdx_x := 32 |} 8192 4096 2 [] = Returned ([] ++ [ins])) /\
  (exists ins,
     load_async example.laneid example.cvta example.st_64x64_swizzled
       {| threadIdx_x := 32 |} 4096 8192 2 64 [] = Returned ([] ++ [ins])).
Proof.
  apply (prefetch_only_from_thread_zero example.laneid example.cvta
           example.st_64x64_swizzled {| threadIdx_x := 32 |} 4096 8192 2 64 []);
    [reflexivity | unfold Int.INT_MAX; cbn; lia | in_int | reflexivity | cbn; lia].
Defined.

(** Witness of X10: a load issued after a commit. *)
Lemma transfer_appends_witness :
  exists l,
    [cp_async_bulk_commit_group; cp_async_bulk_tensor_2d_shared_global 4096 8192 64 0 128] =
      [cp_async_bulk_commit_group] ++ l /\
    (length l <= 1)%nat /\
    forall tr0,
      run_transfer example.laneid example.cvta LoadAsync example.st_64x64_swizzled
        {| threadIdx_x := 0 |} 4096 8192 2 64 tr0 = Returned (tr0 ++ l).
Proof.
  apply (transfer_appends example.laneid example.cvta LoadAsync example.st_64x64_swizzled
           {| threadIdx_x := 0 |} 4096 8192 2 64 [cp_async_bulk_commit_group]).
  reflexivity.
Defined.

(** Witness of X11: a barrier for a 64x64 blocked-col-transposed tile. *)
Lemma init_barrier_composes_witness :
  init_barrier example.laneid example.cvta (shared_tile example.st_64x64_col_t)
    {| threadIdx_x := 0 |} 64 1 [] =
  (tr' ← init_barrier example.laneid example.cvta default_type {| threadIdx_x := 0 |} 64 1 [];
   mret (set_barrier_bytes example.laneid example.cvta {| threadIdx_x := 0 |} 64
           (Int.uint32 (sizeof_st example.st_64x64_col_t)) tr')).
Proof.
  apply (init_barrier_composes example.laneid example.cvta example.st_64x64_col_t
           {| threadIdx_x := 0 |} 64 1 []).
  reflexivity.
Defined.

(** Witness of X12: lane 1 stores tile 1 of a blocked-row tensor. *)
Lemma store_round_witness :
  exists l,
    (tr1 ← store_async example.laneid example.cvta example.st_128x256_row
             {| threadIdx_x := 1 |} 8192 4096 1 [];
     mret (store_async_wait 0
             (store_commit_group example.laneid {| threadIdx_x := 1 |} tr1))) =
    Returned ([] ++ l ++ [cp_async_bulk_wait_group 0; syncwarp]) /\
    (example.laneid {| threadIdx_x := 1 |} = 0 ->
     exists ins, l = [ins; cp_async_bulk_commit_group] /\
       coordinates ins = Some (spec_coordinates example.st_128x256_row 1)) /\
    (example.laneid {| threadIdx_x := 1 |} <> 0 -> l = []).
Proof.
  apply (store_round example.laneid example.cvta example.st_128x256_row
           {| threadIdx_x := 1 |} 8192 4096 1 0 []);
    [reflexivity | unfold Int.INT_MAX; cbn; lia | in_int].
Defined.

(** Witness of X13: lane 0 arms a barrier and loads tile 2. *)
Lemma load_round_witness :
  exists ins,
    (tr1 ← init_barrier example.laneid example.cvta
             (shared_tile example.st_64x64_swizzled) {| threadIdx_x := 0 |} 64 1 [];
     load_async example.laneid example.cvta example.st_64x64_swizzled
       {| threadIdx_x := 0 |} 4096 8192 2 64 tr1) =
    Returned ([] ++ [mbarrier_init (Int.uint32 (example.cvta 64)) 1;
                     mbarrier_arrive_expect_tx (Int.uint32 (example.cvta 64))
                       (sizeof_st example.st_64x64_swizzled); ins]) /\
    barrier_operand ins = Some (Int.uint32 (example.cvta 64)) /\
    coordinates ins = Some (spec_coordinates example.st_64x64_swizzled 2).
Proof.
  apply (proj1 (load_round example.laneid example.cvta example.st_64x64_swizzled
                  {| threadIdx_x := 0 |} 4096 8192 2 64 1 []
                  eq_refl ltac:(unfold Int.INT_MAX; cbn; lia) ltac:(in_int)
                  ltac:(cbn; lia))).
  reflexivity.
Defined.

(** Witness of X14: a barrier that completes on the fourth poll. *)
Lemma arrive_and_wait_returns_at_first_success_witness :
  arrive_and_wait nat example_barrier.try_wait example.cvta 10 64 0 3%nat =
  Some (after_polls nat example_barrier.try_wait example.cvta 4 64 0 3%nat).
Proof.
  apply (proj1 (arrive_and_wait_returns_at_first_success nat example_barrier.try_wait
                  example.cvta 64 0 3%nat) 3%nat).
  - intros j Hj. destruct j as [| [| [| j]]]; [reflexivity | reflexivity | reflexivity | lia].
  - reflexivity.
  - lia.
Defined.

(** Witness of X15: a barrier polled with a stale phase bit. *)
Lemma arrive_and_wait_spins_witness :
  arrive_and_wait nat example_barrier.try_wait_stale example.cvta 1000 64 0 0%nat = None.
Proof.
  apply (arrive_and_wait_spins nat example_barrier.try_wait_stale example.cvta 64 0 0%nat).
  intros k. reflexivity.
Defined.
